(** * Importador de Redações: validation-and-load pipeline

    A shallow embedding of [importador_redacoes_streamlit.py]: the
    environment cleaning and engine construction ([_clean_env],
    [build_engine]), the sanitisation of the uploaded sheet (the body of the
    import action, lines 207-241) and the clear-then-insert protocol
    against [temp_analise_correcao_humano] (lines 243-300).

    Conventions.
    - Python [str] values are [string]s of bytes; a row of a DataFrame and
      a record of [to_dict(orient="records")] are [gmap string cell].
    - The Streamlit page is an append-only log of the messages the script
      emits; [st.stop()] and an uncaught exception end the run.
    - The MySQL server is a table (a list of records) together with a
      description of which statements it rejects.
    - The import action starts from the table that [read_uploaded_file]
      returned; reading the file itself is outside this development. *)

From Stdlib Require Import ZArith Ascii String.
From stdpp Require Import base decidable option list strings gmap pretty.


(* ===================================================================== *)
(** * Python string primitives *)
(* ===================================================================== *)

Module PyStr.

(** [c.isspace()] on the ASCII range: TAB, LF, VT, FF, CR, the four
    separators FS/GS/RS/US and the space. *)
Definition isspace (a : ascii) : bool :=
  let n := nat_of_ascii a in
  ((9 <=? n)%nat && (n <=? 13)%nat) || ((28 <=? n)%nat && (n <=? 32)%nat).

Fixpoint lstrip (s : string) : string :=
  match s with
  | String a s' => if isspace a then lstrip s' else s
  | EmptyString => EmptyString
  end.

Fixpoint rstrip (s : string) : string :=
  match s with
  | String a s' =>
      match rstrip s' with
      | EmptyString => if isspace a then EmptyString else String a EmptyString
      | r => String a r
      end
  | EmptyString => EmptyString
  end.

(** [s.strip()] *)
Definition strip (s : string) : string := rstrip (lstrip s).

(** [s.startswith(c)] and [s.endswith(c)] for a one-character [c]. *)
Definition startswith (s : string) (c : ascii) : bool :=
  match s with
  | String a _ => bool_decide (a = c)
  | EmptyString => false
  end.

Fixpoint endswith (s : string) (c : ascii) : bool :=
  match s with
  | String a EmptyString => bool_decide (a = c)
  | String _ s' => endswith s' c
  | EmptyString => false
  end.

(** [s[1:-1]] *)
Definition slice_1_m1 (s : string) : string :=
  String.substring 1 (String.length s - 2) s.

(** [sep.join(l)] *)
Fixpoint join (sep : string) (l : list string) : string :=
  match l with
  | [] => EmptyString
  | [x] => x
  | x :: l' => x +:+ sep +:+ join sep l'
  end.

(** [bool(s)]: only the empty string is falsy. *)
Definition truthy (s : string) : bool :=
  match s with EmptyString => false | _ => true end.

End PyStr.

(* ===================================================================== *)
(** * Connection provider: [_clean_env] and [build_engine] *)
(* ===================================================================== *)

(** The double-quote character. *)
Definition dquote : ascii := "034"%char.

(** [_clean_env(s)]: strips blanks, then one pair of square brackets (and
    the blanks inside them), then one pair of matching quotes. *)
Definition _clean_env (s : option string) : string :=
  match s with
  | None => EmptyString
  | Some s =>
      let s := PyStr.strip s in
      let s :=
        if PyStr.startswith s "["%char && PyStr.endswith s "]"%char
        then PyStr.strip (PyStr.slice_1_m1 s) else s in
      let s :=
        if (PyStr.startswith s dquote && PyStr.endswith s dquote)
           || (PyStr.startswith s "'"%char && PyStr.endswith s "'"%char)
        then PyStr.slice_1_m1 s else s in
      s
  end.

(** The engine that [create_engine] returns is determined by its URL. *)
Record Engine := { engine_url : string }.

Definition MSG_CONNECT : string :=
  "Não foi possível conectar ao banco MySQL. Verifique host, porta e permissões.".

Definition MSG_MISSING_ENV : string := "Variáveis ausentes no .env: ".

(** The five settings after cleaning, in the order of the dict literal of
    [build_engine]. [environ] is [os.environ] once [load_dotenv()] ran. *)
Definition cleaned_settings (environ : gmap string string) : list (string * string) :=
  [ ("DB_HOST", _clean_env (environ !! "DB_HOST"));
    ("DB_PORT", _clean_env (Some (default "3306" (environ !! "DB_PORT"))));
    ("DB_DATABASE", _clean_env (environ !! "DB_DATABASE"));
    ("DB_USERNAME", _clean_env (environ !! "DB_USERNAME"));
    ("DB_PASSWORD", _clean_env (environ !! "DB_PASSWORD")) ].

(** [[k for k, v in {...}.items() if not v]] *)
Definition missing_settings (environ : gmap string string) : list string :=
  (filter (λ kv : string * string, ¬ PyStr.truthy kv.2) (cleaned_settings environ)).*1.

Definition connection_uri (environ : gmap string string) : string :=
  let db_host := _clean_env (environ !! "DB_HOST") in
  let db_port := _clean_env (Some (default "3306" (environ !! "DB_PORT"))) in
  let db_name := _clean_env (environ !! "DB_DATABASE") in
  let db_user := _clean_env (environ !! "DB_USERNAME") in
  let db_pass := _clean_env (environ !! "DB_PASSWORD") in
  "mysql+pymysql://" +:+ db_user +:+ ":" +:+ db_pass +:+ "@" +:+ db_host
    +:+ ":" +:+ db_port +:+ "/" +:+ db_name +:+ "?charset=utf8mb4".

(** [build_engine()]. [probe uri] tells whether [create_engine(uri)]
    followed by [SELECT 1] goes through; [false] stands for the
    [SQLAlchemyError] that the [except] clause catches. The result is the
    pair [(engine, err)] of the source. *)
Definition build_engine (environ : gmap string string) (probe : string → bool)
  : option Engine * option string :=
  let missing := missing_settings environ in
  if bool_decide (missing ≠ []) then
    (None, Some (MSG_MISSING_ENV +:+ PyStr.join ", " missing))
  else
    let uri := connection_uri environ in
    if probe uri then (Some {| engine_url := uri |}, None)
    else (None, Some MSG_CONNECT).

(* ===================================================================== *)
(** * Cells, columns and the pandas operations the script uses *)
(* ===================================================================== *)

(** A cell of the uploaded sheet: missing, an integer, a float or text.
    [CNull] stands for NaN, [None] and [pd.NA]; [CFloat m e] is the finite
    float [m * 2^e]. Booleans and dates, which a spreadsheet may also
    hold, are left out. *)
Inductive cell :=
| CNull
| CInt (z : Z)
| CFloat (m e : Z)
| CStr (s : string).

#[global] Instance cell_eq_dec : EqDecision cell.
Proof. solve_decision. Defined.

(** An element of the column that [pd.to_numeric] returns. Columns are
    converted element by element: the rounding of integers beyond [2^53]
    that a float64 column would bring is left out, and an infinite float
    behaves as any float without an integer value. *)
Inductive numeric :=
| NNaN
| NInt (z : Z)
| NFloat (m e : Z).

#[global] Instance numeric_eq_dec : EqDecision numeric.
Proof. solve_decision. Defined.

(** The two text conversions that pandas and Python own: how a [str]
    element is read as a number by [pd.to_numeric(..., errors="coerce")]
    ([NNaN] when it is not a number), and how [str()] prints a float. *)
Class PandasText := {
  str_to_numeric : string → numeric;
  float_to_str : Z → Z → string
}.

(** A row of a DataFrame; [to_dict(orient="records")] yields the same
    dicts. *)
Abbreviation row := (gmap string cell).

(** A DataFrame body: rows in order, each with its index label. Columns a
    row has no entry for read as null. *)
Abbreviation frame := (list (nat * gmap string cell)).

(** The table that [read_uploaded_file] returns: normalised column names
    and the rows in file order. *)
Record Table := { columns : list string; records : list (gmap string cell) }.

(** The default [RangeIndex] of a freshly read DataFrame. *)
Definition frame_of (t : Table) : frame := imap (λ i r, (i, r)) (records t).

Definition cell_at (r : row) (c : string) : cell := default CNull (r !! c).

Definition isna (c : cell) : bool :=
  match c with CNull => true | _ => false end.

Definition INT64_MIN : Z := (- 2 ^ 63)%Z.
Definition INT64_MAX : Z := (2 ^ 63 - 1)%Z.

(** The integer a float equals, if there is one. *)
Definition float_integral (m e : Z) : option Z :=
  if (0 <=? e)%Z then Some (m * 2 ^ e)%Z
  else if (m mod 2 ^ (- e) =? 0)%Z then Some (m / 2 ^ (- e))%Z else None.

Definition in_int64 (z : Z) : option Z :=
  if (INT64_MIN <=? z)%Z && (z <=? INT64_MAX)%Z then Some z else None.

(** One element of [.astype("Int64")]: a missing value becomes [pd.NA], an
    integer value that fits is kept, and anything else makes the cast
    raise ([None]). *)
Definition astype_Int64 (n : numeric) : option cell :=
  match n with
  | NNaN => Some CNull
  | NInt z => CInt <$> in_int64 z
  | NFloat m e => CInt <$> (float_integral m e ≫= in_int64)
  end.

Section Pandas.
Context `{PandasText}.

(** One element of [pd.to_numeric(col, errors="coerce")]. *)
Definition to_numeric (c : cell) : numeric :=
  match c with
  | CNull => NNaN
  | CInt z => NInt z
  | CFloat m e => NFloat m e
  | CStr s => str_to_numeric s
  end.

(** One element of [col.fillna("").astype(str)]. *)
Definition fillna_astype_str (c : cell) : string :=
  match c with
  | CNull => EmptyString
  | CInt z => pretty z
  | CFloat m e => float_to_str m e
  | CStr s => s
  end.

(** [df.dropna(subset=[col])] *)
Definition dropna (col : string) (df : frame) : frame :=
  filter (λ ir, isna (cell_at ir.2 col) = false) df.

(** [df[col] = pd.to_numeric(df[col], errors="coerce").astype("Int64")];
    [None] when the cast raises. *)
Definition coerce_Int64 (col : string) (df : frame) : option frame :=
  mapM (λ ir, c ← astype_Int64 (to_numeric (cell_at ir.2 col));
              Some (ir.1, <[col := c]> ir.2)) df.

(** [df[col] = df[col].fillna("").astype(str)] *)
Definition coerce_str (col : string) (df : frame) : frame :=
  (λ ir, (ir.1, <[col := CStr (fillna_astype_str (cell_at ir.2 col))]> ir.2)) <$> df.

(** [df.drop_duplicates(subset=[col], keep="last")]: a row goes when a
    later row has the same value in [col]; the others keep their order
    and their labels. *)
Fixpoint drop_duplicates_last (col : string) (df : frame) : frame :=
  match df with
  | [] => []
  | ir :: rest =>
      if decide (Exists (λ jr, cell_at jr.2 col = cell_at ir.2 col) rest)
      then drop_duplicates_last col rest
      else ir :: drop_duplicates_last col rest
  end.

(** [df[col] = v] for a scalar [v]. *)
Definition assign (col : string) (v : cell) (df : frame) : frame :=
  (λ ir, (ir.1, <[col := v]> ir.2)) <$> df.

(** [df[cols].copy()] *)
Definition select (cols : list string) (df : frame) : frame :=
  (λ ir, (ir.1, list_to_map ((λ c, (c, cell_at ir.2 c)) <$> cols))) <$> df.

(** [df.to_dict(orient="records")] *)
Definition to_dict_records (df : frame) : list row := df.*2.

End Pandas.

(* ===================================================================== *)
(** * Row validator and normaliser (import action, lines 207-235) *)
(* ===================================================================== *)

Definition REQUIRED_COLUMNS : list string :=
  [ "redacao_id"; "arquivo_nome_armazenamento"; "tema"; "redacao_texto";
    "co_redacao_grade_id" ].

Definition INSERT_COLUMNS : list string :=
  [ "redacao_id"; "corretor"; "situacao_nota_zero";
    "nota_c1"; "nota_c2"; "nota_c3"; "nota_c4"; "nota_c5";
    "arquivo_nome_armazenamento"; "tema"; "redacao_texto";
    "co_redacao_grade_id"; "ocr_confianca";
    "arquivo_anonimo_nome_armazenamento" ].

(** What lines 207-235 end in: the frame [df_insert], the stop on missing
    columns, or the [TypeError] that [.astype("Int64")] raises and nothing
    catches. *)
Inductive validation :=
| ImportBatch (df_insert : frame)
| MissingColumnsError (missing : list string)
| UncaughtTypeError.

(** [[c for c in REQUIRED_COLUMNS if c not in df.columns]] *)
Definition missing_cols (t : Table) : list string :=
  filter (λ c, c ∉ columns t) REQUIRED_COLUMNS.

Section Validator.
Context `{PandasText}.

(** Lines 214-221. *)
Definition sanitize (df : frame) : option frame :=
  let df := dropna "redacao_id" df in
  df ← coerce_Int64 "redacao_id" df;
  let df := dropna "redacao_id" df in
  let df := coerce_str "redacao_texto" df in
  let df := coerce_str "tema" df in
  let df := coerce_str "arquivo_nome_armazenamento" df in
  coerce_Int64 "co_redacao_grade_id" df.

(** Lines 227-232. *)
Definition add_defaults (df : frame) : frame :=
  let df := assign "corretor" (CStr "IA") df in
  let df := foldl (λ df (n : nat), assign ("nota_c" +:+ pretty n) (CInt 0) df)
                  df [1; 2; 3; 4; 5]%nat in
  let df := assign "situacao_nota_zero" CNull df in
  let df := assign "ocr_confianca" CNull df in
  assign "arquivo_anonimo_nome_armazenamento" CNull df.

(** Lines 207-235: from the uploaded table to [df_insert]. *)
Definition validate_and_normalize (t : Table) : validation :=
  if bool_decide (missing_cols t ≠ []) then MissingColumnsError (missing_cols t)
  else
    match sanitize (frame_of t) with
    | None => UncaughtTypeError
    | Some df =>
        let df := drop_duplicates_last "redacao_id" df in
        let df := add_defaults df in
        ImportBatch (select INSERT_COLUMNS df)
    end.

End Validator.

(* ===================================================================== *)
(** * Row by row: what one source row turns into *)
(* ===================================================================== *)

Section RowWise.
Context `{PandasText}.

Definition id_of (r : row) : numeric := to_numeric (cell_at r "redacao_id").
Definition grade_of (r : row) : numeric := to_numeric (cell_at r "co_redacao_grade_id").

(** The [Int64] cell of a number whose cast goes through. *)
Definition Int64_cell (n : numeric) : cell := default CNull (astype_Int64 n).

(** The integer identifier of a row, when its [redacao_id] is present
    and coercible to an integer. *)
Definition valid_id (r : row) : option Z :=
  match astype_Int64 (id_of r) with
  | Some (CInt z) => Some z
  | _ => None
  end.

(** The projection of a source row to the destination shape. *)
Definition to_destination_row (r : row) : row :=
  list_to_map
    [ ("redacao_id", Int64_cell (id_of r));
      ("corretor", CStr "IA");
      ("situacao_nota_zero", CNull);
      ("nota_c1", CInt 0); ("nota_c2", CInt 0); ("nota_c3", CInt 0);
      ("nota_c4", CInt 0); ("nota_c5", CInt 0);
      ("arquivo_nome_armazenamento",
         CStr (fillna_astype_str (cell_at r "arquivo_nome_armazenamento")));
      ("tema", CStr (fillna_astype_str (cell_at r "tema")));
      ("redacao_texto", CStr (fillna_astype_str (cell_at r "redacao_texto")));
      ("co_redacao_grade_id", Int64_cell (grade_of r));
      ("ocr_confianca", CNull);
      ("arquivo_anonimo_nome_armazenamento", CNull) ].

(** The row that lines 214-221 make of a source row they keep: the
    identifier cast, the three text columns filled, the grade cast. *)
Definition with_id (r : row) : row :=
  <["redacao_id" := Int64_cell (id_of r)]> r.

Definition with_texts (r : row) : row :=
  let r := <["redacao_texto" := CStr (fillna_astype_str (cell_at r "redacao_texto"))]> r in
  let r := <["tema" := CStr (fillna_astype_str (cell_at r "tema"))]> r in
  <["arquivo_nome_armazenamento" :=
      CStr (fillna_astype_str (cell_at r "arquivo_nome_armazenamento"))]> r.

Definition sanitized_row (r : row) : row :=
  let r := with_texts (with_id r) in
  <["co_redacao_grade_id" := Int64_cell (to_numeric (cell_at r "co_redacao_grade_id"))]> r.

(** No [.astype("Int64")] of lines 216 and 221 raises: every non-null
    identifier casts, and so does the grade of every row whose
    identifier is valid. *)
Definition casts_safely (rows : list row) : Prop :=
  Forall (λ r, (isna (cell_at r "redacao_id") = false → is_Some (astype_Int64 (id_of r)))
               ∧ (is_Some (valid_id r) → is_Some (astype_Int64 (grade_of r)))) rows.

#[global] Instance casts_safely_dec (rows : list row) : Decision (casts_safely rows).
Proof. unfold casts_safely. apply _. Defined.

(** Of the rows that share an identifier, only the last stays. *)
Fixpoint keep_last (df : frame) : frame :=
  match df with
  | [] => []
  | ir :: rest =>
      if decide (Exists (λ jr, valid_id jr.2 = valid_id ir.2) rest)
      then keep_last rest
      else ir :: keep_last rest
  end.

(** The rows of a table that validation keeps, with their positions in
    the file. *)
Definition survivors (t : Table) : frame :=
  keep_last (filter (λ ir, is_Some (valid_id ir.2)) (frame_of t)).

(** The frame [df_insert] that a table with all its columns and no
    failing cast yields. *)
Definition expected_batch (t : Table) : frame :=
  (λ ir, (ir.1, to_destination_row ir.2)) <$> survivors t.

End RowWise.

(* ===================================================================== *)
(** * The page, the server and the script monad *)
(* ===================================================================== *)

(** What the script writes on the page. [progress pct] is the content of
    the progress placeholder. *)
Inductive ui_event :=
| st_error (msg : string)
| st_warning (msg : string)
| st_info (msg : string)
| st_success (msg : string)
| progress (pct : nat).

(** The statements sent to the server. *)
Inductive sql :=
| TRUNCATE
| DELETE
| INSERT (payload : list (gmap string cell)).

(** The state a run of the script acts on: the rows of
    [temp_analise_correcao_humano], the statements sent so far, the page,
    and the script variable [inserted]. *)
Record world := {
  table : list (gmap string cell);
  statements : list sql;
  page : list ui_event;
  inserted : nat
}.

Definition set_table (f : list (gmap string cell) → list (gmap string cell)) (w : world) : world :=
  {| table := f (table w); statements := statements w; page := page w; inserted := inserted w |}.
Definition sent (q : sql) (w : world) : world :=
  {| table := table w; statements := statements w ++ [q]; page := page w; inserted := inserted w |}.
Definition shown (e : ui_event) (w : world) : world :=
  {| table := table w; statements := statements w; page := page w ++ [e]; inserted := inserted w |}.
Definition set_inserted (n : nat) (w : world) : world :=
  {| table := table w; statements := statements w; page := page w; inserted := n |}.

(** How the server answers during one run: whether it accepts TRUNCATE and
    DELETE, and for the [k]-th INSERT (from 0) whether it fails;
    [insert_fault k = Some n] means the statement raises after [n] rows of
    its payload were written inside the open transaction. *)
Record server := {
  truncate_ok : bool;
  delete_ok : bool;
  insert_fault : nat → option nat
}.

(** Why a run ends early: [st.stop()] or an uncaught exception. *)
Inductive halt :=
| Stop
| Uncaught (exc : string).

Definition script (A : Type) : Type := world → (halt + A) * world.

#[global] Instance script_ret : MRet script := λ A a w, (inr a, w).
#[global] Instance script_bind : MBind script := λ A B f m w,
  match m w with
  | (inr a, w') => f a w'
  | (inl h, w') => (inl h, w')
  end.

Definition emit (e : ui_event) : script unit := λ w, (inr (), shown e w).
Definition st_stop {A} : script A := λ w, (inl Stop, w).
Definition raise {A} (exc : string) : script A := λ w, (inl (Uncaught exc), w).
Definition assign_inserted (n : nat) : script unit := λ w, (inr (), set_inserted n w).
Definition read_inserted : script nat := λ w, (inr (inserted w), w).

(** [conn.execute(text(...))]: the result is [false] when the statement
    raises [SQLAlchemyError]. *)
Definition execute_truncate (srv : server) : script bool := λ w,
  if truncate_ok srv then (inr true, set_table (λ _, []) (sent TRUNCATE w))
  else (inr false, sent TRUNCATE w).

Definition execute_delete (srv : server) : script bool := λ w,
  if delete_ok srv then (inr true, set_table (λ _, []) (sent DELETE w))
  else (inr false, sent DELETE w).

Definition execute_insert (srv : server) (k : nat) (payload : list (gmap string cell))
  : script bool := λ w,
  match insert_fault srv k with
  | None => (inr true, set_table (λ t, t ++ payload) (sent (INSERT payload) w))
  | Some n => (inr false, set_table (λ t, t ++ take n payload) (sent (INSERT payload) w))
  end.

(** [with engine.begin() as conn: body] on a transactional table: commit
    when the body ends normally, roll the table back when it raises. *)
Definition begin (body : script bool) : script bool := λ w,
  match body w with
  | (inr false, w') => (inr false, set_table (λ _, table w) w')
  | r => r
  end.

(* ===================================================================== *)
(** * Bulk loader (import action, lines 243-300) *)
(* ===================================================================== *)

Definition CHUNK : nat := 500.

Definition MSG_CLEARING : string := "Limpando tabela de destino…".
Definition MSG_CLEAR_FAILED : string :=
  "Falha ao limpar a tabela de destino. Verifique permissões de TRUNCATE/DELETE.".
Definition MSG_INSERTING : string := "Inserindo novos registros…".
Definition MSG_INSERT_FAILED : string :=
  "Falha ao inserir registros. Verifique se as colunas e tipos estão corretos.".
Definition MSG_NOTHING : string := "Nada para importar após validação.".
Definition MSG_MISSING_COLS : string := "A planilha está sem as colunas obrigatórias: ".

Definition msg_done (inserted : nat) : string :=
  "Importação concluída: " +:+ pretty inserted +:+ " registro(s) inserido(s). ✅".

(** [range(0, stop, step)] *)
Definition py_range (stop step : nat) : list nat :=
  (λ i, i * step) <$> seq 0 ((stop + step - 1) `div` step).

(** [int(round(a / b))]: Python rounds halves to the even neighbour. *)
Definition py_round_div (a b : nat) : nat :=
  let q := a `div` b in
  let r := a `mod` b in
  if 2 * r <? b then q
  else if b <? 2 * r then S q
  else if Nat.even q then q else S q.

(** [df.iloc[start:end]] *)
Definition iloc (df : frame) (start end_ : nat) : frame :=
  take (end_ - start) (drop start df).

Section Loader.
Context `{PandasText}.
Variable srv : server.

(** Lines 245-254: TRUNCATE, with DELETE as the fallback, in one
    transaction; the run stops when neither goes through. *)
Definition clear_table : script unit :=
  ok ← begin (t ← execute_truncate srv;
              if t : bool then mret true else execute_delete srv);
  if ok : bool then mret ()
  else emit (st_error MSG_CLEAR_FAILED);; st_stop.

(** The body of the [for] loop of lines 282-296, for the starts still
    to do; [k] counts the INSERT statements already sent. The result is
    [false] when an INSERT raised. *)
Fixpoint insert_chunks (df_insert : frame) (total : nat) (starts : list nat) (k : nat)
  : script bool :=
  match starts with
  | [] => mret true
  | start :: starts' =>
      let end_ := (start + CHUNK) `min` total in
      let batch := iloc df_insert start end_ in
      let payload := to_dict_records batch in
      ok ← begin (execute_insert srv k payload);
      if ok : bool then
        assign_inserted end_;;
        emit (progress (py_round_div (end_ * 100) total));;
        insert_chunks df_insert total starts' (S k)
      else mret false
  end.

(** Lines 243-300: clear the table, then insert [df_insert] chunk by
    chunk. *)
Definition load (df_insert : frame) : script unit :=
  let total := length df_insert in
  emit (st_info MSG_CLEARING);;
  clear_table;;
  emit (st_info MSG_INSERTING);;
  emit (progress 0);;
  assign_inserted 0;;
  ok ← insert_chunks df_insert total (py_range total CHUNK) 0;
  if ok : bool then
    n ← read_inserted;
    emit (st_success (msg_done n))
  else emit (st_error MSG_INSERT_FAILED);; st_stop.

(** Lines 207-300: the import action on the table read from the upload. *)
Definition import_action (t : Table) : script unit :=
  match validate_and_normalize t with
  | MissingColumnsError missing =>
      emit (st_error (MSG_MISSING_COLS +:+ PyStr.join ", " missing));; st_stop
  | UncaughtTypeError => raise "TypeError"
  | ImportBatch df_insert =>
      let total := length df_insert in
      if bool_decide (total = 0) then emit (st_warning MSG_NOTHING);; st_stop
      else load df_insert
  end.

End Loader.

(* ===================================================================== *)
(** * Chunk by chunk: what a load leaves in the table *)
(* ===================================================================== *)

(** The payload of the [j]-th pass of the loop (lines 283-285), from 0. *)
Definition chunk_payload (df_insert : frame) (j : nat) : list (gmap string cell) :=
  let start := j * CHUNK in
  let end_ := (start + CHUNK) `min` length df_insert in
  to_dict_records (iloc df_insert start end_).

(** The server lets the table be cleared, by TRUNCATE or by DELETE. *)
Definition clears (srv : server) : bool := truncate_ok srv || delete_ok srv.

(** The statements that clearing sends. *)
Definition clear_statements (srv : server) : list sql :=
  if truncate_ok srv then [TRUNCATE] else [TRUNCATE; DELETE].

(** The number of passes of the loop over a batch of [total] rows. *)
Definition chunk_count (total : nat) : nat := (total + CHUNK - 1) `div` CHUNK.

(** The percentage shown once pass [j] is committed. *)
Definition progress_after (total j : nat) : ui_event :=
  progress (py_round_div (((j * CHUNK + CHUNK) `min` total) * 100) total).

(* ===================================================================== *)
(** * A concrete text conversion and the tables of the worked examples *)
(* ===================================================================== *)

Module Sample.

Definition digit_of (a : ascii) : option Z :=
  let n := nat_of_ascii a in
  if (48 <=? n)%nat && (n <=? 57)%nat then Some (Z.of_nat (n - 48)) else None.

Fixpoint read_digits (s : string) (acc : Z) : option Z :=
  match s with
  | EmptyString => Some acc
  | String a s' => d ← digit_of a; read_digits s' (10 * acc + d)%Z
  end.

(** Reads an optionally signed run of decimal digits between blanks. *)
Definition read_integer (s : string) : numeric :=
  let body (t : string) :=
    match t with
    | EmptyString => None
    | _ => read_digits t 0
    end in
  let r :=
    match PyStr.strip s with
    | String "-" t => Z.opp <$> body t
    | String "+" t => body t
    | t => body t
    end in
  from_option NInt NNaN r.

(** The conversion used in the examples below: text is a number when it
    is a decimal integer literal; a float prints as mantissa and binary
    exponent (no example has a float in a text column). *)
#[export] Instance text : PandasText := {|
  str_to_numeric := read_integer;
  float_to_str m e := pretty m +:+ "*2**" +:+ pretty e
|}.

Definition source_row (id : cell) (arquivo tema texto : string) (grade : cell) : row :=
  {[ "redacao_id" := id;
     "arquivo_nome_armazenamento" := CStr arquivo;
     "tema" := CStr tema;
     "redacao_texto" := CStr texto;
     "co_redacao_grade_id" := grade ]}.

(** The scenario of the specification's section 8. *)
Definition scenario : Table :=
  {| columns := REQUIRED_COLUMNS;
     records := [ source_row (CInt 1) "a.png" "Tema A" "Texto A" (CInt 10);
                  source_row (CInt 1) "b.png" "Tema A" "Texto B" (CInt 10);
                  source_row (CInt 2) "c.png" "Tema B" "Texto C" (CInt 11) ] |}.

(** A destination row with the fixed defaults. *)
Definition destination (id : Z) (arquivo tema texto : string) (grade : cell) : row :=
  list_to_map
    [ ("redacao_id", CInt id); ("corretor", CStr "IA"); ("situacao_nota_zero", CNull);
      ("nota_c1", CInt 0); ("nota_c2", CInt 0); ("nota_c3", CInt 0);
      ("nota_c4", CInt 0); ("nota_c5", CInt 0);
      ("arquivo_nome_armazenamento", CStr arquivo); ("tema", CStr tema);
      ("redacao_texto", CStr texto); ("co_redacao_grade_id", grade);
      ("ocr_confianca", CNull); ("arquivo_anonimo_nome_armazenamento", CNull) ].

(** The batch that the scenario yields. *)
Definition scenario_batch : frame :=
  [ (1, destination 1 "b.png" "Tema A" "Texto B" (CInt 10));
    (2, destination 2 "c.png" "Tema B" "Texto C" (CInt 11)) ].

(** A sheet in which no row has an identifier. *)
Definition blank_table : Table :=
  {| columns := REQUIRED_COLUMNS ++ ["observacao"];
     records := [ source_row CNull "a.png" "Tema A" "Texto A" (CInt 10);
                  source_row (CStr "  ") "b.png" "Tema A" "Texto B" (CStr "x") ] |}.

(** A sheet without three of the required columns. *)
Definition short_table : Table :=
  {| columns := ["redacao_id"; "tema"; "nota"];
     records := [ {[ "redacao_id" := CInt 1; "tema" := CStr "Tema A";
                     "nota" := CInt 900 ]} ] |}.

(** A validated batch of [n] rows with the identifiers [0 .. n-1]. *)
Definition batch (n : nat) : frame :=
  (λ i, (i, destination (Z.of_nat i) "f.png" "Tema" "Texto" (CInt 10))) <$> seq 0 n.

(** A server that accepts everything. *)
Definition reliable : server :=
  {| truncate_ok := true; delete_ok := true; insert_fault := λ _, None |}.

(** A server whose [k]-th INSERT fails after writing [n] rows, and that
    refuses TRUNCATE but accepts DELETE. *)
Definition failing_at (k n : nat) : server :=
  {| truncate_ok := false; delete_ok := true;
     insert_fault := λ j, if decide (j = k) then Some n else None |}.

(** The table before an import: two rows of an earlier load. *)
Definition before : world :=
  {| table := [ destination 7 "old.png" "Tema" "Antigo" CNull;
                destination 8 "old2.png" "Tema" "Antigo" CNull ];
     statements := []; page := []; inserted := 0 |}.


(** A configuration with every setting present. *)
Definition environ_with (password : string) : gmap string string :=
  {[ "DB_CONNECTION" := "mysql"; "DB_HOST" := "db.internal"; "DB_PORT" := "3306";
     "DB_DATABASE" := "corrigeai"; "DB_USERNAME" := "udb";
     "DB_PASSWORD" := password ]}.

End Sample.

(* ===================================================================== *)
(** * Tabular reader: [read_uploaded_file] (lines 126-140) *)
(* ===================================================================== *)

Module PyText.

(** The characters below 128. *)
Definition is_ascii (a : ascii) : bool := (nat_of_ascii a <? 128)%nat.

(** [c.lower()] for one character of the ASCII range. *)
Definition lower_char (a : ascii) : ascii :=
  let n := nat_of_ascii a in
  if (65 <=? n)%nat && (n <=? 90)%nat then ascii_of_nat (n + 32) else a.

(** [s.lower()] *)
Fixpoint lower (s : string) : string :=
  match s with
  | EmptyString => EmptyString
  | String a s' => String (lower_char a) (lower s')
  end.

(** [s.replace(old, new)] for one-character [old] and [new]. *)
Fixpoint replace (old new : ascii) (s : string) : string :=
  match s with
  | EmptyString => EmptyString
  | String a s' => String (if bool_decide (a = old) then new else a) (replace old new s')
  end.

(** [s.endswith(suffix)] *)
Definition endswith (s suffix : string) : bool :=
  let ls := list_ascii_of_string s in
  let lsuf := list_ascii_of_string suffix in
  bool_decide (drop (length ls - length lsuf) ls = lsuf).

(** Every character of the string is below 128. *)
Fixpoint ascii_only (s : string) : bool :=
  match s with
  | EmptyString => true
  | String a s' => is_ascii a && ascii_only s'
  end.

End PyText.

(** A string of blanks only. *)
Abbreviation blank s := (Forall (λ a, PyStr.isspace a = true) (list_ascii_of_string s)).

(** A DataFrame as the reader sees it: column labels by position, which
    may repeat, and the cells of each row by position. *)
Record Sheet := { header : list string; body : list (list cell) }.

(** The object that [st.file_uploader] returns. *)
Record UploadedFile := { file_name : option string; file_content : string }.

(** [pd.read_csv] and [pd.read_excel] on the content of an upload; [None]
    when they raise. *)
Class PandasReaders := {
  read_csv : string → option Sheet;
  read_excel : string → option Sheet
}.

Definition MSG_READ_FAILED : string :=
  "Falha ao ler a planilha. Verifique formato e conteúdo.".

(** [str(c).strip().lower().replace(" ", "_")] *)
Definition normalize_column (c : string) : string :=
  PyText.replace " "%char "_"%char (PyText.lower (PyStr.strip c)).

(** [read_uploaded_file(file)]; [inl msg] is the [RuntimeError(msg)] it
    raises. *)
Definition read_uploaded_file `{PandasReaders} (file : UploadedFile) : string + Sheet :=
  let name := PyText.lower (default EmptyString (file_name file)) in
  let parsed :=
    if PyText.endswith name ".csv" then read_csv (file_content file)
    else read_excel (file_content file) in
  match parsed with
  | None => inl MSG_READ_FAILED
  | Some df => inr {| header := normalize_column <$> header df; body := body df |}
  end.

(** The same DataFrame read by column name, as the import action does.
    When two columns share a name the first one is read; what pandas does
    with such a frame is left out. *)
Definition table_of_sheet (df : Sheet) : Table :=
  {| columns := header df;
     records := (λ cells, list_to_map (zip (header df) cells)) <$> body df |}.

(* ===================================================================== *)
(** * The page (lines 183-205 and the import action) *)
(* ===================================================================== *)

Definition MSG_CONNECTED : string := "Conexão ativa com o banco de dados.".
Definition MSG_NO_FILE : string := "Anexe um arquivo antes de importar.".

(** One run of the script. [importar] is what [st.button] returned and
    [uploaded_file] what [st.file_uploader] returned. *)
Definition page_run `{PandasText} `{PandasReaders}
    (environ : gmap string string) (probe : string → bool) (srv : server)
    (uploaded_file : option UploadedFile) (importar : bool) : script unit :=
  let '(engine, err) := build_engine environ probe in
  (if bool_decide (PyStr.truthy (default EmptyString err))
   then emit (st_error (default EmptyString err))
   else emit (st_success MSG_CONNECTED));;
  if importar then
    match engine with
    | None => raise "AssertionError"
    | Some _ =>
        match uploaded_file with
        | None => emit (st_warning MSG_NO_FILE);; st_stop
        | Some file =>
            match read_uploaded_file file with
            | inl msg => emit (st_error msg);; st_stop
            | inr df => import_action srv (table_of_sheet df)
            end
        end
    end
  else mret ().

(** Two source rows with the same cells in the five required columns. *)
Definition same_required (r r' : row) : Prop :=
  Forall (λ c, cell_at r c = cell_at r' c) REQUIRED_COLUMNS.

(* ===================================================================== *)
(** * More tables for the worked examples *)
(* ===================================================================== *)

Module Sample2.

(** A sheet whose columns need normalising and that carries a column the
    importer does not use. *)
Definition raw_sheet : Sheet :=
  {| header := [" Redacao ID"; "Arquivo Nome Armazenamento "; "TEMA"; "redacao_texto";
                "Co Redacao Grade Id"; "Obs"];
     body := [ [CInt 5; CStr "e.png"; CStr "Tema E"; CNull; CInt 3; CStr "x"];
               [CStr "6"; CStr "f.png"; CInt 12; CStr "Texto F"; CStr "?"; CNull] ] |}.

(** Readers that take every CSV for [raw_sheet] and fail on everything
    else. *)
#[export] Instance readers : PandasReaders := {|
  read_csv := λ _, Some raw_sheet;
  read_excel := λ _, None
|}.


Definition xlsx_upload : UploadedFile :=
  {| file_name := Some "redacoes.xlsx"; file_content := "PK" |}.

(** A sheet with two rows, two identifiers and a column of its own. *)
Definition distinct_table : Table :=
  {| columns := REQUIRED_COLUMNS ++ ["obs"];
     records :=
       [ <["obs" := CStr "x"]> (Sample.source_row (CInt 5) "e.png" "Tema E" "Texto E" (CInt 3));
         Sample.source_row (CStr "6") "f.png" "Tema F" "Texto F" (CStr "?") ] |}.

(** The same two rows without their extra column. *)
Definition bare_table : Table :=
  {| columns := REQUIRED_COLUMNS;
     records :=
       [ Sample.source_row (CInt 5) "e.png" "Tema E" "Texto E" (CInt 3);
         Sample.source_row (CStr "6") "f.png" "Tema F" "Texto F" (CStr "?") ] |}.

(** A server on which the account may neither TRUNCATE nor DELETE. *)
Definition read_only : server :=
  {| truncate_ok := false; delete_ok := false; insert_fault := λ _, None |}.

(** A database that accepts every connection. *)
Definition always_connects : string → bool := λ _, true.

(** A configuration without host and with a blank user name. *)
Definition broken_environ : gmap string string :=
  {[ "DB_DATABASE" := "corrigeai"; "DB_USERNAME" := "   "; "DB_PASSWORD" := "pw" ]}.

End Sample2.

(* ===================================================================== *)
(** * General facts about lists and maps *)
(* ===================================================================== *)

Lemma mapM_total {A B} (f : A → option B) (g : A → B) (l : list A) :
  Forall (λ x, f x = Some (g x)) l → mapM f l = Some (g <$> l).
Proof.
  intros Hl. apply mapM_Some. induction Hl; constructor; auto.
Qed.

Lemma mapM_fmap_total {A B C} (f : B → option C) (g : A → B) (h : A → C) (l : list A) :
  Forall (λ x, f (g x) = Some (h x)) l → mapM f (g <$> l) = Some (h <$> l).
Proof.
  intros Hl. apply mapM_Some. induction Hl; constructor; auto.
Qed.

Lemma filter_fmap_comm {A B} (f : A → B) (P : B → Prop) `{!∀ y, Decision (P y)}
    (l : list A) :
  filter P (f <$> l) = f <$> filter (λ x, P (f x)) l.
Proof.
  induction l as [|x l IH]; [done|].
  rewrite fmap_cons, !filter_cons. destruct (decide (P (f x))); rewrite IH; done.
Qed.

Lemma filter_ext_in {A} (P Q : A → Prop) `{!∀ x, Decision (P x)} `{!∀ x, Decision (Q x)}
    (l : list A) :
  Forall (λ x, P x ↔ Q x) l → filter P l = filter Q l.
Proof.
  induction 1 as [|x l Hx _ IH]; [done|].
  rewrite !filter_cons, IH.
  destruct (decide (P x)), (decide (Q x)); tauto.
Qed.

Lemma and_iff_compat_l' (P Q R : Prop) : (P → (Q ↔ R)) → (P ∧ Q ↔ P ∧ R).
Proof. tauto. Qed.

Lemma cell_at_insert (r : row) (c c' : string) (v : cell) :
  cell_at (<[c := v]> r) c' = if decide (c = c') then v else cell_at r c'.
Proof.
  unfold cell_at. rewrite lookup_insert. by destruct (decide (c = c')).
Qed.

Lemma cell_at_insert_eq (r : row) (c : string) (v : cell) :
  cell_at (<[c := v]> r) c = v.
Proof. rewrite cell_at_insert. by rewrite decide_True. Qed.

Lemma cell_at_insert_ne (r : row) (c c' : string) (v : cell) :
  c ≠ c' → cell_at (<[c := v]> r) c' = cell_at r c'.
Proof. intros. rewrite cell_at_insert. by rewrite decide_False. Qed.

(* ===================================================================== *)
(** * The validator, row by row *)
(* ===================================================================== *)

Section ValidatorFacts.
Context `{PandasText}.

Lemma astype_Int64_cases (n : numeric) :
  astype_Int64 n = None ∨ astype_Int64 n = Some CNull ∨ ∃ z, astype_Int64 n = Some (CInt z).
Proof.
  destruct n as [|z|m e]; simpl.
  - auto.
  - destruct (in_int64 z); simpl; eauto.
  - destruct (float_integral m e ≫= in_int64); simpl; eauto.
Qed.

Lemma valid_id_Some (r : row) (z : Z) :
  valid_id r = Some z ↔ astype_Int64 (id_of r) = Some (CInt z).
Proof.
  unfold valid_id.
  destruct (astype_Int64_cases (id_of r)) as [-> | [-> | [z' ->]]];
    split; intros; simplify_eq; done.
Qed.

Lemma valid_id_isna (r : row) :
  is_Some (valid_id r) ↔ isna (Int64_cell (id_of r)) = false.
Proof.
  unfold valid_id, Int64_cell.
  destruct (astype_Int64_cases (id_of r)) as [-> | [-> | [z' ->]]]; simpl;
    split; intros Hx; try done; try (by destruct Hx); eauto.
Qed.

Lemma valid_id_not_null (r : row) :
  is_Some (valid_id r) → isna (cell_at r "redacao_id") = false.
Proof.
  unfold valid_id, id_of. destruct (cell_at r "redacao_id"); simpl; try done;
    by intros [??].
Qed.

Lemma valid_id_cell (r : row) (z : Z) :
  valid_id r = Some z → Int64_cell (id_of r) = CInt z.
Proof. intros Hz%valid_id_Some. unfold Int64_cell. by rewrite Hz. Qed.

Lemma casts_safely_forall (rows : list row) :
  casts_safely rows ↔
  (∀ r, r ∈ rows → isna (cell_at r "redacao_id") = false → is_Some (astype_Int64 (id_of r)))
  ∧ (∀ r, r ∈ rows → is_Some (valid_id r) → is_Some (astype_Int64 (grade_of r))).
Proof.
  unfold casts_safely. rewrite Forall_forall. split.
  - intros Hall. split; intros r Hr; by destruct (Hall r Hr).
  - intros [H1 H2] r Hr. split; [by apply H1 | by apply H2].
Qed.

Lemma grade_after_texts (r : row) :
  cell_at (with_texts (with_id r)) "co_redacao_grade_id" = cell_at r "co_redacao_grade_id".
Proof.
  unfold with_texts, with_id. cbv zeta. by rewrite !cell_at_insert_ne by done.
Qed.

(** Lines 214-220, once every identifier cast goes through: the rows with
    a valid identifier remain, in order, and line 221 is still to run. *)
Lemma sanitize_ids (df : frame) :
  (∀ ir, ir ∈ df → isna (cell_at ir.2 "redacao_id") = false →
         is_Some (astype_Int64 (id_of ir.2))) →
  sanitize df
  = coerce_Int64 "co_redacao_grade_id"
      ((λ ir, (ir.1, with_texts (with_id ir.2)))
         <$> filter (λ ir, is_Some (valid_id ir.2)) df).
Proof.
  intros Hsafe. unfold sanitize. unfold coerce_Int64 at 2.
  rewrite (mapM_total _ (λ ir, (ir.1, with_id ir.2))).
  2:{ unfold dropna. apply Forall_forall. intros [i r] [Hna Hin]%list_elem_of_filter.
      destruct (Hsafe _ Hin Hna) as [c Hc]. simpl in *.
      unfold with_id, Int64_cell, id_of in *. by rewrite Hc. }
  simpl. unfold dropna at 1. rewrite filter_fmap_comm. unfold dropna.
  rewrite list_filter_filter.
  rewrite (filter_ext_in _ (λ ir, is_Some (valid_id ir.2))).
  2:{ apply Forall_forall. intros [i r] _. simpl. unfold with_id.
      rewrite cell_at_insert_eq, valid_id_isna. split; [tauto|]. intros Hv.
      split; [done|]. by apply valid_id_not_null, valid_id_isna. }
  unfold coerce_str. by rewrite <- !list_fmap_compose.
Qed.

(** Lines 214-221 on a frame whose casts go through. *)
Lemma sanitize_safe (df : frame) :
  casts_safely df.*2 →
  sanitize df
  = Some ((λ ir, (ir.1, sanitized_row ir.2)) <$> filter (λ ir, is_Some (valid_id ir.2)) df).
Proof.
  intros [Hid Hgr]%casts_safely_forall. rewrite sanitize_ids.
  2:{ intros [i r] Hin. apply Hid. by apply (list_elem_of_fmap_2 snd) in Hin. }
  apply mapM_fmap_total, Forall_forall. intros [i r] [Hv Hin]%list_elem_of_filter.
  apply (list_elem_of_fmap_2 snd) in Hin. simpl in *.
  destruct (Hgr _ Hin Hv) as [c Hc]. unfold grade_of in Hc.
  unfold sanitized_row. cbv zeta. rewrite grade_after_texts.
  unfold Int64_cell at 1. by rewrite Hc.
Qed.

(** When a cast raises, so does [sanitize]. *)
Lemma sanitize_unsafe (df : frame) :
  ¬ casts_safely df.*2 → sanitize df = None.
Proof.
  intros Hns. destruct (sanitize df) as [df'|] eqn:Hs; [|done]. exfalso. apply Hns.
  assert (∀ ir, ir ∈ df → isna (cell_at ir.2 "redacao_id") = false →
                is_Some (astype_Int64 (id_of ir.2))) as Hid.
  { intros [i r] Hin Hna. unfold sanitize, coerce_Int64 in Hs.
    destruct (mapM _ (dropna _ df)) as [df1|] eqn:H1; [|done].
    pose proof (mapM_is_Some_1 _ _ (mk_is_Some _ _ H1)) as HF.
    rewrite Forall_forall in HF. specialize (HF (i, r)). simpl in HF.
    unfold id_of. destruct (astype_Int64 _); [done|].
    destruct HF as [? HF]; [|done]. apply list_elem_of_filter. done. }
  apply casts_safely_forall. split.
  - intros r [[i r'] [-> Hin]]%list_elem_of_fmap. by apply (Hid (i, r')).
  - intros r [[i r'] [-> Hin]]%list_elem_of_fmap Hv. simpl in *.
    rewrite sanitize_ids in Hs by done. unfold coerce_Int64 in Hs.
    pose proof (mapM_is_Some_1 _ _ (mk_is_Some _ _ Hs)) as HF.
    rewrite Forall_forall in HF.
    specialize (HF (i, with_texts (with_id r'))). simpl in HF.
    rewrite grade_after_texts in HF. unfold grade_of.
    destruct (astype_Int64 _); [done|]. destruct HF as [? HF]; [|done].
    apply (list_elem_of_fmap_2' _ _ (i, r')); [|done].
    apply list_elem_of_filter. done.
Qed.

Lemma id_after_sanitize (r : row) :
  cell_at (sanitized_row r) "redacao_id" = Int64_cell (id_of r).
Proof.
  unfold sanitized_row, with_texts, with_id. cbv zeta.
  rewrite !cell_at_insert_ne by done. apply cell_at_insert_eq.
Qed.

(** Line 224 on sanitised rows compares the integer identifiers. *)
Lemma drop_duplicates_sanitized (l : frame) :
  Forall (λ ir, is_Some (valid_id ir.2)) l →
  drop_duplicates_last "redacao_id" ((λ ir, (ir.1, sanitized_row ir.2)) <$> l)
  = (λ ir, (ir.1, sanitized_row ir.2)) <$> keep_last l.
Proof.
  induction 1 as [|[i r] l [z Hz] Hl IH]; [done|].
  rewrite fmap_cons. simpl. rewrite IH.
  assert (Exists (λ jr : nat * row, cell_at jr.2 "redacao_id"
                                    = cell_at (sanitized_row r) "redacao_id")
                 ((λ ir, (ir.1, sanitized_row ir.2)) <$> l)
          ↔ Exists (λ jr : nat * row, valid_id jr.2 = valid_id r) l) as Hiff.
  { rewrite Exists_fmap, !Exists_exists. rewrite Forall_forall in Hl.
    apply exist_proper. intros [j r']. unfold compose. simpl.
    apply and_iff_compat_l'. intros Hin.
    destruct (Hl _ Hin) as [z' Hz']. simpl in Hz, Hz'.
    rewrite !id_after_sanitize, (valid_id_cell _ _ Hz), (valid_id_cell _ _ Hz'), Hz, Hz'.
    split; intros; simplify_eq; done. }
  destruct (decide (Exists _ (_ <$> l))) as [He|He], (decide (Exists _ l)) as [He'|He'];
    try done; tauto.
Qed.

Lemma add_defaults_select (l : frame) :
  select INSERT_COLUMNS (add_defaults ((λ ir, (ir.1, sanitized_row ir.2)) <$> l))
  = (λ ir, (ir.1, to_destination_row ir.2)) <$> l.
Proof.
  unfold select, add_defaults, assign. cbn [foldl].
  rewrite <- !list_fmap_compose. apply list_fmap_ext. intros _ [i r] _.
  unfold compose. cbn [fst snd]. f_equal.
  change ("nota_c" +:+ pretty 1%nat) with "nota_c1".
  change ("nota_c" +:+ pretty 2%nat) with "nota_c2".
  change ("nota_c" +:+ pretty 3%nat) with "nota_c3".
  change ("nota_c" +:+ pretty 4%nat) with "nota_c4".
  change ("nota_c" +:+ pretty 5%nat) with "nota_c5".
  unfold INSERT_COLUMNS, to_destination_row. cbn [fmap list_fmap].
  unfold sanitized_row, with_texts, with_id, grade_of. cbv zeta.
  f_equal. repeat (f_equal; [f_equal|]); try reflexivity;
    repeat (rewrite cell_at_insert_eq || rewrite cell_at_insert_ne by discriminate);
    reflexivity.
Qed.

Lemma imap_labelled_snd (g : nat → nat) (rows : list row) :
  (imap (λ i r, (g i, r)) rows).*2 = rows.
Proof.
  revert g. induction rows as [|r rows IH]; intros g; [done|].
  rewrite imap_cons, fmap_cons. simpl. f_equal. apply (IH (g ∘ S)).
Qed.

Lemma imap_labelled_snd' {A} (f : row → A) (g : nat → nat) (rows : list row) :
  (imap (λ i r, (g i, f r)) rows).*2 = f <$> rows.
Proof.
  revert g. induction rows as [|r rows IH]; intros g; [done|].
  rewrite imap_cons, !fmap_cons. simpl. f_equal. apply (IH (g ∘ S)).
Qed.

Lemma frame_of_records (t : Table) : (frame_of t).*2 = records t.
Proof. apply (imap_labelled_snd id). Qed.

(** ** What [validate_and_normalize] returns *)

Lemma validate_missing (t : Table) :
  missing_cols t ≠ [] → validate_and_normalize t = MissingColumnsError (missing_cols t).
Proof. intros Hm. unfold validate_and_normalize. by rewrite bool_decide_true. Qed.

Lemma validate_batch (t : Table) :
  missing_cols t = [] → casts_safely (records t) →
  validate_and_normalize t = ImportBatch (expected_batch t).
Proof.
  intros Hm Hsafe. unfold validate_and_normalize.
  rewrite bool_decide_false by (by intros ?).
  rewrite sanitize_safe by (by rewrite frame_of_records).
  rewrite drop_duplicates_sanitized.
  2:{ apply Forall_forall. by intros ir [? _]%list_elem_of_filter. }
  by rewrite add_defaults_select.
Qed.

Lemma validate_raises (t : Table) :
  missing_cols t = [] → ¬ casts_safely (records t) →
  validate_and_normalize t = UncaughtTypeError.
Proof.
  intros Hm Hsafe. unfold validate_and_normalize.
  rewrite bool_decide_false by (by intros ?).
  rewrite sanitize_unsafe; [done|]. by rewrite frame_of_records.
Qed.

Lemma validate_batch_inv (t : Table) (df_insert : frame) :
  validate_and_normalize t = ImportBatch df_insert →
  missing_cols t = [] ∧ casts_safely (records t) ∧ df_insert = expected_batch t.
Proof.
  intros Hv. destruct (decide (missing_cols t = [])) as [Hm|Hm].
  - destruct (decide (casts_safely (records t))) as [Hs|Hs].
    + rewrite validate_batch in Hv by done. by simplify_eq.
    + by rewrite validate_raises in Hv.
  - by rewrite validate_missing in Hv.
Qed.

(** ** The rows that stay *)

Lemma keep_last_sublist (l : frame) : keep_last l `sublist_of` l.
Proof.
  induction l as [|ir l IH]; [done|]. simpl.
  destruct (decide _); by constructor.
Qed.

Lemma survivors_sublist (t : Table) : survivors t `sublist_of` frame_of t.
Proof.
  unfold survivors. etrans; [apply keep_last_sublist | apply sublist_filter].
Qed.

Lemma survivors_valid (t : Table) :
  Forall (λ ir, is_Some (valid_id ir.2)) (survivors t).
Proof.
  apply Forall_forall. intros ir Hin.
  pose proof (elem_of_sublist _ _ _ Hin (keep_last_sublist _)) as Hin'.
  by apply list_elem_of_filter in Hin' as [? _].
Qed.

(** No two rows that stay share an identifier. *)
Lemma keep_last_NoDup (l : frame) :
  NoDup ((λ ir, valid_id ir.2) <$> keep_last l).
Proof.
  induction l as [|ir l IH]; [constructor|]. simpl.
  destruct (decide _) as [He|He]; [done|].
  rewrite fmap_cons. apply NoDup_cons. split; [|done].
  intros [jr [Heq Hin]]%list_elem_of_fmap. apply He, Exists_exists.
  exists jr. split; [|done]. eapply elem_of_sublist, keep_last_sublist. done.
Qed.






Lemma filter_none {A} (P : A → Prop) `{!∀ x, Decision (P x)} (l : list A) :
  Forall (λ x, ¬ P x) l → filter P l = [].
Proof.
  induction 1 as [|x l Hx _ IH]; [done|]. by rewrite filter_cons_False.
Qed.


(** ** The destination row *)

Lemma destination_id (r : row) :
  to_destination_row r !! "redacao_id" = Some (Int64_cell (id_of r)).
Proof. reflexivity. Qed.

Lemma destination_id_valid (r : row) (z : Z) :
  to_destination_row r !! "redacao_id" = Some (CInt z) ↔ valid_id r = Some z.
Proof.
  rewrite destination_id, valid_id_Some. unfold Int64_cell.
  destruct (astype_Int64_cases (id_of r)) as [-> | [-> | [z' ->]]]; simpl;
    split; intros; simplify_eq; done.
Qed.


Lemma destination_defaults (r : row) :
  to_destination_row r !! "corretor" = Some (CStr "IA")
  ∧ Forall (λ c, to_destination_row r !! c = Some (CInt 0))
           ["nota_c1"; "nota_c2"; "nota_c3"; "nota_c4"; "nota_c5"]
  ∧ Forall (λ c, to_destination_row r !! c = Some CNull)
           ["situacao_nota_zero"; "ocr_confianca"; "arquivo_anonimo_nome_armazenamento"].
Proof. repeat split; repeat constructor. Qed.


End ValidatorFacts.

(* ===================================================================== *)
(** * Properties of the validator *)
(* ===================================================================== *)

Section Validation.
Context `{PandasText}.

(** C3. Every record of a produced batch has [corretor = "IA"], the five
    [nota_c*] equal to 0, the three unset fields null and an integer
    [redacao_id]; no two records of the batch share their [redacao_id]. *)
Theorem fixed_defaults_invariant (t : Table) (df_insert : frame) :
  validate_and_normalize t = ImportBatch df_insert →
  Forall (λ rec : row,
            rec !! "corretor" = Some (CStr "IA")
            ∧ Forall (λ c, rec !! c = Some (CInt 0))
                     ["nota_c1"; "nota_c2"; "nota_c3"; "nota_c4"; "nota_c5"]
            ∧ Forall (λ c, rec !! c = Some CNull)
                     ["situacao_nota_zero"; "ocr_confianca";
                      "arquivo_anonimo_nome_armazenamento"]
            ∧ ∃ z, rec !! "redacao_id" = Some (CInt z))
         (to_dict_records df_insert)
  ∧ NoDup ((λ rec : row, rec !! "redacao_id") <$> to_dict_records df_insert).
Proof.
  intros (_ & _ & ->)%validate_batch_inv. unfold expected_batch, to_dict_records.
  rewrite <- list_fmap_compose. split.
  - rewrite Forall_fmap. eapply Forall_impl; [apply survivors_valid|].
    intros [i r] [z Hz]. unfold compose. simpl in *.
    destruct (destination_defaults r) as (? & ? & ?). repeat split; try done.
    exists z. by apply destination_id_valid.
  - rewrite <- list_fmap_compose.
    rewrite (list_fmap_ext _ (λ ir, CInt <$> valid_id ir.2) (survivors t)).
    2:{ intros j [i r] Hin. unfold compose. simpl.
        pose proof (survivors_valid t) as Hv. rewrite Forall_forall in Hv.
        destruct (Hv _ (list_elem_of_lookup_2 _ _ _ Hin)) as [z Hz]. simpl in Hz.
        rewrite Hz. by apply destination_id_valid. }
    replace ((λ ir : nat * row, CInt <$> valid_id ir.2) <$> survivors t)
      with (fmap CInt <$> ((λ ir : nat * row, valid_id ir.2) <$> survivors t))
      by (by rewrite <- list_fmap_compose).
    apply NoDup_fmap_2_strong; [|apply keep_last_NoDup].
    intros [x|] [y|] _ _ Heq; by simplify_eq/=.
Qed.

(** C10. The rows of the batch are, in file order, the projections of
    input rows: the batch with its labels is a subsequence of the input
    rows projected in place. *)
Theorem validation_preserves_order (t : Table) (df_insert : frame) :
  validate_and_normalize t = ImportBatch df_insert →
  df_insert `sublist_of` imap (λ i r, (i, to_destination_row r)) (records t)
  ∧ to_dict_records df_insert `sublist_of` (to_destination_row <$> records t).
Proof.
  intros (_ & _ & ->)%validate_batch_inv.
  assert (expected_batch t `sublist_of` imap (λ i r, (i, to_destination_row r)) (records t))
    as Hsub.
  { unfold expected_batch.
    replace (imap _ (records t))
      with ((λ ir : nat * row, (ir.1, to_destination_row ir.2)) <$> frame_of t)
      by (unfold frame_of; by rewrite fmap_imap).
    apply fmap_sublist, survivors_sublist. }
  split; [done|]. unfold to_dict_records.
  apply (fmap_sublist snd) in Hsub. by rewrite (imap_labelled_snd' _ id) in Hsub.
Qed.





End Validation.

(* ===================================================================== *)
(** * The loader, pass by pass *)
(* ===================================================================== *)

Section LoaderFacts.
Variable srv : server.
Variable df : frame.

Lemma begin_insert_ok (k : nat) (payload : list row) (w : world) :
  insert_fault srv k = None →
  begin (execute_insert srv k payload) w
  = (inr true, set_table (λ t, t ++ payload) (sent (INSERT payload) w)).
Proof. intros Hk. unfold begin, execute_insert. by rewrite Hk. Qed.

(** A failing INSERT leaves the table as it was when the transaction
    began, whatever it had written. *)
Lemma begin_insert_fault (k n : nat) (payload : list row) (w : world) :
  insert_fault srv k = Some n →
  ∃ w', begin (execute_insert srv k payload) w = (inr false, w')
        ∧ table w' = table w
        ∧ statements w' = statements w ++ [INSERT payload]
        ∧ page w' = page w
        ∧ inserted w' = inserted w.
Proof. intros Hk. unfold begin, execute_insert. rewrite Hk. by eexists. Qed.

Lemma insert_chunks_ok (m : nat) : ∀ (j0 : nat) (w : world),
  (∀ j, j0 ≤ j < j0 + m → insert_fault srv j = None) →
  ∃ w', insert_chunks srv df (length df) ((λ i, i * CHUNK) <$> seq j0 m) j0 w
        = (inr true, w')
        ∧ table w' = table w ++ concat (chunk_payload df <$> seq j0 m)
        ∧ statements w' = statements w ++ (INSERT ∘ chunk_payload df <$> seq j0 m)
        ∧ page w' = page w ++ (progress_after (length df) <$> seq j0 m)
        ∧ inserted w' = match m with
                        | 0 => inserted w
                        | S m' => ((j0 + m') * CHUNK + CHUNK) `min` length df
                        end.
Proof.
  induction m as [|m IH]; intros j0 w Hok.
  - exists w. simpl. by rewrite !app_nil_r.
  - cbn [seq fmap list_fmap insert_chunks]. unfold mbind, script_bind.
    rewrite begin_insert_ok by (apply Hok; lia).
    unfold assign_inserted, emit.
    edestruct (IH (S j0)) as (w' & -> & Ht & Hs & Hp & Hi).
    { intros j Hj. apply Hok. lia. }
    cbn [table statements page inserted shown set_inserted set_table sent]
      in Ht, Hs, Hp, Hi.
    fold (chunk_payload df j0) in Ht, Hs. fold (progress_after (length df) j0) in Hp.
    exists w'. split; [done|]. rewrite Ht, Hs, Hp, Hi.
    cbn [concat fmap list_fmap compose]. rewrite <- !app_assoc.
    repeat split; try done.
    destruct m as [|m']; [by rewrite Nat.add_0_r|].
    by replace (j0 + S m') with (S j0 + m') by lia.
Qed.

Lemma insert_chunks_app (s1 s2 : list nat) : ∀ (j0 : nat) (w : world),
  insert_chunks srv df (length df) (s1 ++ s2) j0 w
  = match insert_chunks srv df (length df) s1 j0 w with
    | (inr true, w') => insert_chunks srv df (length df) s2 (j0 + length s1) w'
    | r => r
    end.
Proof.
  induction s1 as [|s s1 IH]; intros j0 w.
  - simpl. by rewrite Nat.add_0_r.
  - cbn [app insert_chunks length]. unfold mbind, script_bind.
    destruct (begin _ w) as [[h|[|]] w1]; try done.
    unfold assign_inserted, emit. rewrite IH.
    by replace (S j0 + length s1) with (j0 + S (length s1)) by lia.
Qed.

(** The loop when pass [k] is the first whose INSERT fails. *)
Lemma insert_chunks_fault (k n m : nat) (w : world) :
  (∀ j, j < k → insert_fault srv j = None) →
  insert_fault srv k = Some n →
  k < m →
  ∃ w', insert_chunks srv df (length df) ((λ i, i * CHUNK) <$> seq 0 m) 0 w
        = (inr false, w')
        ∧ table w' = table w ++ concat (chunk_payload df <$> seq 0 k)
        ∧ statements w' = statements w ++ (INSERT ∘ chunk_payload df <$> seq 0 (S k))
        ∧ page w' = page w ++ (progress_after (length df) <$> seq 0 k)
        ∧ inserted w' = match k with
                        | 0 => inserted w
                        | S k' => (k' * CHUNK + CHUNK) `min` length df
                        end.
Proof.
  intros Hok Hk Hkm.
  rewrite (seq_S k 0 : seq 0 (S k) = seq 0 k ++ [0 + k]).
  replace m with (k + S (m - S k)) by lia.
  rewrite seq_app, fmap_app, insert_chunks_app.
  destruct (insert_chunks_ok k 0 w) as (w1 & -> & Ht & Hs & Hp & Hi).
  { intros j Hj. apply Hok. lia. }
  rewrite length_fmap, length_seq.
  cbn [seq fmap list_fmap insert_chunks]. unfold mbind, script_bind.
  change (0 + k) with k.
  match goal with
  | |- context [begin (execute_insert srv k ?p) w1] =>
      destruct (begin_insert_fault k n p w1 Hk) as (w' & -> & Ht' & Hs' & Hp' & Hi')
  end.
  fold (chunk_payload df k) in Hs'.
  exists w'. split; [done|]. rewrite Ht', Hs', Hp', Hi', Ht, Hs, Hp, Hi.
  rewrite fmap_app, <- app_assoc. repeat split; try done.
Qed.

(** ** The chunks *)

Lemma chunk_payload_take (j : nat) :
  chunk_payload df j = take CHUNK (drop (j * CHUNK) (to_dict_records df)).
Proof.
  unfold chunk_payload, iloc, to_dict_records. cbv zeta.
  rewrite <- fmap_drop, <- fmap_take. f_equal.
  destruct (decide (j * CHUNK + CHUNK ≤ length df)) as [Hle|Hgt].
  - rewrite Nat.min_l by done. f_equal. lia.
  - rewrite Nat.min_r by lia.
    rewrite !take_ge; [done | rewrite length_drop; lia | rewrite length_drop; lia].
Qed.

Lemma concat_chunks (k : nat) :
  concat (chunk_payload df <$> seq 0 k) = take (k * CHUNK) (to_dict_records df).
Proof.
  induction k as [|k IH]; [done|].
  rewrite seq_S, fmap_app, concat_app, IH. cbn [fmap list_fmap concat].
  rewrite app_nil_r, chunk_payload_take. change (0 + k) with k.
  rewrite take_take_drop. f_equal. lia.
Qed.

Lemma chunk_count_spec (total k : nat) : k < chunk_count total ↔ k * CHUNK < total.
Proof.
  unfold chunk_count. assert (CHUNK = 500) as -> by done.
  split; intros Hk.
  - assert (S k ≤ (total + 500 - 1) `div` 500) as Hle by lia.
    pose proof (Nat.Div0.mul_div_le (total + 500 - 1) 500). nia.
  - unfold lt. apply Nat.div_le_lower_bound; lia.
Qed.

Lemma concat_all_chunks :
  concat (chunk_payload df <$> seq 0 (chunk_count (length df))) = to_dict_records df.
Proof.
  rewrite concat_chunks. apply take_ge. unfold to_dict_records. rewrite length_fmap.
  destruct (decide (length df ≤ chunk_count (length df) * CHUNK)) as [|Hn]; [done|].
  assert (chunk_count (length df) * CHUNK < length df) as Hlt%chunk_count_spec by lia.
  lia.
Qed.

Lemma chunk_payload_length (j : nat) :
  length (chunk_payload df j) = CHUNK `min` (length df - j * CHUNK).
Proof.
  rewrite chunk_payload_take, length_take, length_drop.
  unfold to_dict_records. by rewrite length_fmap.
Qed.

(** Either no pass below [n] fails, or there is a first one that does. *)
Lemma first_fault_cases (n : nat) :
  (∀ j, j < n → insert_fault srv j = None)
  ∨ ∃ k m, k < n ∧ insert_fault srv k = Some m ∧ ∀ j, j < k → insert_fault srv j = None.
Proof.
  induction n as [|n [Hok|(k & m & Hk & Hf & Hfirst)]].
  - left. intros j Hj. lia.
  - destruct (insert_fault srv n) as [m|] eqn:Hn.
    + right. exists n, m. auto.
    + left. intros j Hj. destruct (decide (j = n)) as [->|]; [done|]. apply Hok. lia.
  - right. exists k, m. auto.
Qed.

(** ** Clearing *)

Lemma clear_table_ok (w : world) :
  clears srv = true →
  ∃ w', clear_table srv w = (inr (), w')
        ∧ table w' = []
        ∧ statements w' = statements w ++ clear_statements srv
        ∧ page w' = page w
        ∧ inserted w' = inserted w.
Proof.
  unfold clears, clear_table, clear_statements, begin, execute_truncate, execute_delete.
  unfold mbind, script_bind, mret, script_ret. intros Hc.
  destruct (truncate_ok srv); [by eexists|]. simpl in Hc. rewrite Hc.
  eexists. split; [done|]. cbn. by rewrite <- app_assoc.
Qed.

Lemma clear_table_fail (w : world) :
  clears srv = false →
  ∃ w', clear_table srv w = (inl Stop, w')
        ∧ table w' = table w
        ∧ statements w' = statements w ++ [TRUNCATE; DELETE]
        ∧ page w' = page w ++ [st_error MSG_CLEAR_FAILED]
        ∧ inserted w' = inserted w.
Proof.
  unfold clears, clear_table, begin, execute_truncate, execute_delete.
  unfold mbind, script_bind, mret, script_ret. intros [-> ->]%orb_false_elim.
  eexists. split; [done|]. cbn. by rewrite <- app_assoc.
Qed.

(** ** A whole load *)

Lemma py_range_chunks (total : nat) :
  py_range total CHUNK = (λ i, i * CHUNK) <$> seq 0 (chunk_count total).
Proof. reflexivity. Qed.

Ltac step_load w1 :=
  unfold load; cbv zeta; rewrite py_range_chunks;
  unfold mbind, script_bind, emit; cbn match;
  match goal with
  | |- context [clear_table srv ?w0] => set (w1 := w0)
  end.

(** When neither TRUNCATE nor DELETE goes through, nothing is inserted
    and the table keeps its rows. *)
Lemma load_clear_fail (w : world) :
  clears srv = false →
  ∃ w', load srv df w = (inl Stop, w')
        ∧ table w' = table w
        ∧ statements w' = statements w ++ [TRUNCATE; DELETE]
        ∧ page w' = page w ++ [st_info MSG_CLEARING; st_error MSG_CLEAR_FAILED]
        ∧ inserted w' = inserted w.
Proof.
  intros Hc. step_load w1.
  destruct (clear_table_fail w1 Hc) as (w' & -> & Ht & Hs & Hp & Hi).
  exists w'. split; [done|]. rewrite Ht, Hs, Hp, Hi. subst w1. cbn.
  by rewrite <- app_assoc.
Qed.

(** The load when pass [k] is the first whose INSERT fails. *)
Lemma load_fault (k n : nat) (w : world) :
  clears srv = true →
  k * CHUNK < length df →
  (∀ j, j < k → insert_fault srv j = None) →
  insert_fault srv k = Some n →
  ∃ w', load srv df w = (inl Stop, w')
        ∧ table w' = take (k * CHUNK) (to_dict_records df)
        ∧ statements w'
          = statements w ++ clear_statements srv
              ++ (INSERT ∘ chunk_payload df <$> seq 0 (S k))
        ∧ page w'
          = page w ++ [st_info MSG_CLEARING; st_info MSG_INSERTING; progress 0]
              ++ (progress_after (length df) <$> seq 0 k)
              ++ [st_error MSG_INSERT_FAILED]
        ∧ inserted w' = k * CHUNK.
Proof.
  intros Hc Hk Hok Hf. step_load w1.
  destruct (clear_table_ok w1 Hc) as (w2 & -> & Ht & Hs & Hp & Hi).
  unfold assign_inserted.
  match goal with
  | |- context [insert_chunks srv df _ _ 0 ?w0] =>
      destruct (insert_chunks_fault k n (chunk_count (length df)) w0 Hok Hf)
        as (w3 & -> & Ht3 & Hs3 & Hp3 & Hi3); [by apply chunk_count_spec|]
  end.
  unfold st_stop. eexists. split; [done|].
  cbn [table statements page inserted shown set_inserted set_table sent] in *.
  rewrite Ht3, Hs3, Hp3, Hi3, Ht, Hs, Hp. subst w1.
  cbn [table statements page inserted shown set_inserted set_table sent].
  rewrite concat_chunks, <- !app_assoc. repeat split; try done.
  destruct k as [|k']; [done|]. rewrite Nat.min_l; lia.
Qed.

(** The load when no INSERT fails. *)
Lemma load_ok (w : world) :
  clears srv = true →
  (∀ j, j < chunk_count (length df) → insert_fault srv j = None) →
  ∃ w', load srv df w = (inr (), w')
        ∧ table w' = to_dict_records df
        ∧ statements w'
          = statements w ++ clear_statements srv
              ++ (INSERT ∘ chunk_payload df <$> seq 0 (chunk_count (length df)))
        ∧ page w'
          = page w ++ [st_info MSG_CLEARING; st_info MSG_INSERTING; progress 0]
              ++ (progress_after (length df) <$> seq 0 (chunk_count (length df)))
              ++ [st_success (msg_done (length df))]
        ∧ inserted w' = length df.
Proof.
  intros Hc Hok. step_load w1.
  destruct (clear_table_ok w1 Hc) as (w2 & -> & Ht & Hs & Hp & Hi).
  unfold assign_inserted.
  match goal with
  | |- context [insert_chunks srv df _ _ 0 ?w0] =>
      destruct (insert_chunks_ok (chunk_count (length df)) 0 w0)
        as (w3 & -> & Ht3 & Hs3 & Hp3 & Hi3); [intros j Hj; apply Hok; lia|]
  end.
  unfold read_inserted. eexists. split; [done|].
  cbn [table statements page inserted shown set_inserted set_table sent] in *.
  assert (inserted w3 = length df) as Hlen.
  { rewrite Hi3. destruct (chunk_count (length df)) as [|m'] eqn:Hm.
    - destruct (decide (length df = 0)) as [|Hne]; [done|].
      assert (0 < chunk_count (length df)) by (apply chunk_count_spec; lia). lia.
    - cbn [Nat.add]. apply Nat.min_r.
      destruct (decide (length df ≤ m' * CHUNK + CHUNK)) as [|Hn]; [done|].
      assert (S m' < chunk_count (length df)) by (apply chunk_count_spec; lia). lia. }
  rewrite Hlen, Ht3, Hs3, Hp3, Ht, Hs, Hp. subst w1.
  cbn [table statements page inserted shown set_inserted set_table sent].
  rewrite concat_all_chunks, <- !app_assoc. repeat split; try done.
Qed.

Lemma load_table_indep (w1 w2 : world) :
  clears srv = true → table (load srv df w1).2 = table (load srv df w2).2.
Proof.
  intros Hc.
  destruct (first_fault_cases (chunk_count (length df))) as [Hok|(k & n & Hk & Hf & Hfirst)].
  - destruct (load_ok w1 Hc Hok) as (? & -> & Ht1 & _).
    destruct (load_ok w2 Hc Hok) as (? & -> & Ht2 & _). simpl. congruence.
  - apply chunk_count_spec in Hk.
    destruct (load_fault k n w1 Hc Hk Hfirst Hf) as (? & -> & Ht1 & _).
    destruct (load_fault k n w2 Hc Hk Hfirst Hf) as (? & -> & Ht2 & _). simpl. congruence.
Qed.

(** A load that ends normally has replaced the table by the batch. *)
Lemma load_done (w w' : world) :
  load srv df w = (inr (), w') → table w' = to_dict_records df.
Proof.
  intros Hl. destruct (clears srv) eqn:Hc.
  - destruct (first_fault_cases (chunk_count (length df)))
      as [Hok|(k & n & Hk & Hf & Hfirst)].
    + destruct (load_ok w Hc Hok) as (x & Hl' & Ht & _). rewrite Hl in Hl'.
      by simplify_eq.
    + apply chunk_count_spec in Hk.
      destruct (load_fault k n w Hc Hk Hfirst Hf) as (x & Hl' & _). rewrite Hl in Hl'.
      by simplify_eq.
  - destruct (load_clear_fail w Hc) as (x & Hl' & _). rewrite Hl in Hl'. by simplify_eq.
Qed.

End LoaderFacts.

(* ===================================================================== *)
(** * The import action *)
(* ===================================================================== *)

Section ImportFacts.
Context `{PandasText}.
Variable srv : server.

Lemma import_missing (t : Table) (w : world) :
  missing_cols t ≠ [] →
  import_action srv t w
  = (inl Stop, shown (st_error (MSG_MISSING_COLS +:+ PyStr.join ", " (missing_cols t))) w).
Proof. intros Hm. unfold import_action. by rewrite validate_missing. Qed.

Lemma import_nothing (t : Table) (w : world) :
  validate_and_normalize t = ImportBatch [] →
  import_action srv t w = (inl Stop, shown (st_warning MSG_NOTHING) w).
Proof. intros Hv. unfold import_action. by rewrite Hv. Qed.


Lemma validate_all_blank (t : Table) :
  missing_cols t = [] → Forall (λ r, id_of r = NNaN) (records t) →
  validate_and_normalize t = ImportBatch [].
Proof.
  intros Hm Hblank.
  assert (Forall (λ r, valid_id r = None) (records t)) as Hnone.
  { eapply Forall_impl; [exact Hblank|]. intros r Hr. unfold valid_id. by rewrite Hr. }
  rewrite validate_batch; [|done|].
  - unfold expected_batch, survivors. rewrite filter_none; [done|].
    apply Forall_forall. intros [i r] Hin. simpl.
    apply (list_elem_of_fmap_2 snd) in Hin. rewrite frame_of_records in Hin.
    simpl in Hin. rewrite Forall_forall in Hnone. rewrite (Hnone _ Hin). by intros [??].
  - apply casts_safely_forall. rewrite Forall_forall in Hblank, Hnone. split.
    + intros r Hin _. by rewrite (Hblank _ Hin).
    + intros r Hin. rewrite (Hnone _ Hin). by intros [??].
Qed.

End ImportFacts.

(* ===================================================================== *)
(** * Strings *)
(* ===================================================================== *)

Lemma string_app_assoc (s1 s2 s3 : string) : (s1 +:+ s2) +:+ s3 = s1 +:+ (s2 +:+ s3).
Proof.
  induction s1 as [|a s1 IH]; [done|].
  change (String a ((s1 +:+ s2) +:+ s3) = String a (s1 +:+ (s2 +:+ s3))).
  by rewrite IH.
Qed.

Lemma string_app_nil_r (s : string) : s +:+ EmptyString = s.
Proof.
  induction s as [|a s IH]; [done|].
  change (String a (s +:+ EmptyString) = String a s). by rewrite IH.
Qed.

(** Every element of a list occurs in its [join]. *)
Lemma join_contains (sep c : string) (l : list string) :
  c ∈ l → ∃ pre post, PyStr.join sep l = pre +:+ c +:+ post.
Proof.
  induction l as [|x l IH]; [by intros ?%elem_of_nil|].
  intros [->|Hin]%elem_of_cons.
  - destruct l as [|y l].
    + exists EmptyString, EmptyString. simpl. by rewrite string_app_nil_r.
    + exists EmptyString, (sep +:+ PyStr.join sep (y :: l)). done.
  - destruct (IH Hin) as (pre & post & Heq). destruct l as [|y l]; [by apply elem_of_nil in Hin|].
    exists (x +:+ sep +:+ pre), post.
    change (PyStr.join sep (x :: y :: l)) with (x +:+ sep +:+ PyStr.join sep (y :: l)).
    by rewrite Heq, !string_app_assoc.
Qed.

(* ===================================================================== *)
(** * Properties of the import action and of the loader *)
(* ===================================================================== *)

(** C5. When one or more of the five required columns are missing,
    validation ends in [MissingColumnsError] with exactly the missing
    names, the message shown contains each of them, and the run stops with
    no statement sent and the table untouched. *)
Theorem missing_columns_gate `{PandasText} (srv : server) (t : Table) (w : world) :
  (∃ c, c ∈ REQUIRED_COLUMNS ∧ c ∉ columns t) →
  validate_and_normalize t = MissingColumnsError (missing_cols t)
  ∧ (∀ c, c ∈ missing_cols t ↔ c ∈ REQUIRED_COLUMNS ∧ c ∉ columns t)
  ∧ (∀ c, c ∈ REQUIRED_COLUMNS → c ∉ columns t →
       ∃ pre post,
         MSG_MISSING_COLS +:+ PyStr.join ", " (missing_cols t) = pre +:+ c +:+ post)
  ∧ ∃ w', import_action srv t w = (inl Stop, w')
          ∧ page w'
            = page w ++ [st_error (MSG_MISSING_COLS +:+ PyStr.join ", " (missing_cols t))]
          ∧ statements w' = statements w
          ∧ table w' = table w.
Proof.
  intros (c0 & Hreq & Hmiss).
  assert (∀ c, c ∈ missing_cols t ↔ c ∈ REQUIRED_COLUMNS ∧ c ∉ columns t) as Hiff.
  { intros c. unfold missing_cols. rewrite list_elem_of_filter. tauto. }
  assert (missing_cols t ≠ []) as Hne.
  { intros Hnil. assert (c0 ∈ missing_cols t) as Hin by (by apply Hiff).
    rewrite Hnil in Hin. by apply elem_of_nil in Hin. }
  split; [by apply validate_missing|]. split; [done|]. split.
  - intros c Hc Hc'.
    destruct (join_contains ", " c (missing_cols t)) as (pre & post & ->); [by apply Hiff|].
    exists (MSG_MISSING_COLS +:+ pre), post. by rewrite string_app_assoc.
  - eexists. split; [by apply import_missing|]. done.
Qed.

(** C7. A table whose validation yields an empty batch makes the run stop
    with the warning "Nada para importar após validação." and nothing
    else: no statement is sent and the table keeps its rows. A table with
    its five columns in which no [redacao_id] is a number is such a
    table. *)
Theorem empty_batch_short_circuit `{PandasText} :
  (∀ (srv : server) (t : Table) (w : world),
     validate_and_normalize t = ImportBatch [] →
     ∃ w', import_action srv t w = (inl Stop, w')
           ∧ page w' = page w ++ [st_warning MSG_NOTHING]
           ∧ statements w' = statements w
           ∧ table w' = table w)
  ∧ (∀ t : Table,
       missing_cols t = [] → Forall (λ r, id_of r = NNaN) (records t) →
       validate_and_normalize t = ImportBatch []).
Proof.
  split.
  - intros srv t w Hv. eexists. split; [by apply import_nothing|]. done.
  - apply validate_all_blank.
Qed.

(** C4. A load whose statements all go through sends the batch in
    consecutive chunks of 500 rows, the last one possibly shorter, and
    leaves exactly the batch in the table. When the INSERT of chunk [k]
    (from 0) is the first to fail, whatever it had written is rolled back:
    the table holds exactly the first [k] chunks, [inserted] is [500 * k],
    and chunk [k] is the last statement sent. For 1200 rows and a failure
    in the third chunk that is 1000 rows and [inserted = 1000]. *)
Theorem chunked_insert_atomic (srv : server) (df_insert : frame) (w : world) :
  df_insert ≠ [] → clears srv = true →
  (∀ j, chunk_payload df_insert j
        = take CHUNK (drop (j * CHUNK) (to_dict_records df_insert)))
  ∧ (∀ j, j * CHUNK + CHUNK ≤ length df_insert →
          length (chunk_payload df_insert j) = 500)
  ∧ concat (chunk_payload df_insert <$> seq 0 (chunk_count (length df_insert)))
    = to_dict_records df_insert
  ∧ ((∀ j, j < chunk_count (length df_insert) → insert_fault srv j = None) →
     ∃ w', load srv df_insert w = (inr (), w')
           ∧ statements w'
             = statements w ++ clear_statements srv
                 ++ (INSERT ∘ chunk_payload df_insert
                       <$> seq 0 (chunk_count (length df_insert)))
           ∧ table w' = to_dict_records df_insert
           ∧ inserted w' = length df_insert)
  ∧ (∀ k n,
       k * CHUNK < length df_insert →
       (∀ j, j < k → insert_fault srv j = None) →
       insert_fault srv k = Some n →
       ∃ w', load srv df_insert w = (inl Stop, w')
             ∧ statements w'
               = statements w ++ clear_statements srv
                   ++ (INSERT ∘ chunk_payload df_insert <$> seq 0 k)
                   ++ [INSERT (chunk_payload df_insert k)]
             ∧ table w' = concat (chunk_payload df_insert <$> seq 0 k)
             ∧ table w' = take (k * 500) (to_dict_records df_insert)
             ∧ length (table w') = k * 500
             ∧ inserted w' = k * 500
             ∧ (length df_insert = 1200 → k = 2 →
                length (table w') = 1000 ∧ inserted w' = 1000)).
Proof.
  intros Hne Hc. split; [apply chunk_payload_take|]. split.
  { intros j Hj. rewrite chunk_payload_length. unfold CHUNK in *. lia. }
  split; [apply concat_all_chunks|]. split.
  - intros Hok. destruct (load_ok srv df_insert w Hc Hok) as (w' & Hl & Ht & Hs & _ & Hi).
    by exists w'.
  - intros k n Hk Hfirst Hf.
    destruct (load_fault srv df_insert k n w Hc Hk Hfirst Hf)
      as (w' & Hl & Ht & Hs & _ & Hi).
    assert (length (table w') = k * 500) as Hlen.
    { rewrite Ht, length_take. unfold to_dict_records. rewrite length_fmap.
      unfold CHUNK in *. lia. }
    exists w'. split; [done|]. split.
    { rewrite Hs, (seq_S k 0), fmap_app. done. }
    split; [by rewrite concat_chunks|]. split; [done|]. split; [done|].
    split; [done|]. intros _ ->. rewrite Hlen, Hi. done.
Qed.

(** C1, for the report that the script gives. When the INSERT of chunk
    [k] is the first to fail, the run stops; the last thing shown is the
    fixed message "Falha ao inserir registros. ..."; the script variable
    [inserted] holds the number of rows that the table then contains,
    [500 * k]; and the failing INSERT is the last statement sent. *)
Theorem insert_failure_report (srv : server) (df_insert : frame) (w : world) (k n : nat) :
  clears srv = true →
  k * CHUNK < length df_insert →
  (∀ j, j < k → insert_fault srv j = None) →
  insert_fault srv k = Some n →
  ∃ w', load srv df_insert w = (inl Stop, w')
        ∧ last (page w') = Some (st_error MSG_INSERT_FAILED)
        ∧ inserted w' = k * 500
        ∧ length (table w') = inserted w'
        ∧ table w' = take (inserted w') (to_dict_records df_insert)
        ∧ last (statements w') = Some (INSERT (chunk_payload df_insert k)).
Proof.
  intros Hc Hk Hfirst Hf.
  destruct (load_fault srv df_insert k n w Hc Hk Hfirst Hf) as (w' & Hl & Ht & Hs & Hp & Hi).
  exists w'. split; [done|]. split.
  { rewrite Hp, !app_assoc. apply last_snoc. }
  split; [done|]. split.
  { rewrite Ht, Hi, length_take. unfold to_dict_records. rewrite length_fmap.
    unfold CHUNK in *. lia. }
  split; [by rewrite Ht, Hi|].
  rewrite Hs, (seq_S k 0), fmap_app, !app_assoc. apply last_snoc.
Qed.

(** C9. Loading a batch again after loading it leaves the table as one
    load leaves it: for a server that answers both loads alike, whatever
    it answers; and for any two loads that both end normally, in which
    case the table is exactly the batch. *)
Theorem reimport_idempotent (df_insert : frame) (w : world) :
  (∀ srv : server,
     table (load srv df_insert (load srv df_insert w).2).2
     = table (load srv df_insert w).2)
  ∧ (∀ (srv1 srv2 : server) (w1 w2 : world),
       load srv1 df_insert w = (inr (), w1) →
       load srv2 df_insert w1 = (inr (), w2) →
       table w2 = table w1 ∧ table w1 = to_dict_records df_insert).
Proof.
  split.
  - intros srv. destruct (clears srv) eqn:Hc.
    + by apply load_table_indep.
    + destruct (load_clear_fail srv df_insert (load srv df_insert w).2 Hc)
        as (w' & Hl & Ht & _). by rewrite Hl.
  - intros srv1 srv2 w1 w2 H1%load_done H2%load_done. by rewrite H1, H2.
Qed.

(* ===================================================================== *)
(** * Properties of the connection provider *)
(* ===================================================================== *)

Lemma truthy_empty (v : string) : ¬ PyStr.truthy v ↔ v = EmptyString.
Proof.
  destruct v as [|a v]; simpl.
  - split; [done|]. by intros _ ?.
  - split; [|done]. intros Hn. by destruct Hn.
Qed.

Lemma missing_settings_spec (environ : gmap string string) (k : string) :
  k ∈ missing_settings environ ↔ (k, EmptyString) ∈ cleaned_settings environ.
Proof.
  unfold missing_settings. rewrite list_elem_of_fmap. split.
  - intros ([k' v] & -> & [Hv%truthy_empty Hin]%list_elem_of_filter).
    simpl in *. by subst v.
  - intros Hin. exists (k, EmptyString). split; [done|].
    apply list_elem_of_filter. split; [by apply truthy_empty | done].
Qed.





(* ===================================================================== *)
(** * Worked examples *)
(* ===================================================================== *)

Section Examples.
Import Sample.

Example clean_env_brackets : _clean_env (Some " [ 'udb' ] ") = "udb".
Proof. reflexivity. Qed.

Example clean_env_empty_brackets : _clean_env (Some "[]") = EmptyString.
Proof. reflexivity. Qed.

Example clean_env_unset : _clean_env None = EmptyString.
Proof. reflexivity. Qed.

Example read_integer_signed : read_integer " -42" = NInt (-42).
Proof. reflexivity. Qed.

Example read_integer_text : read_integer "4x2" = NNaN.
Proof. reflexivity. Qed.

Example py_round_half_even :
  py_round_div 1 2 = 0 ∧ py_round_div 3 2 = 2 ∧ py_round_div (1000 * 100) 1200 = 83.
Proof. repeat split. Qed.

(** A fractional identifier makes line 216 raise. *)
Example fractional_id_raises :
  validate_and_normalize
    {| columns := REQUIRED_COLUMNS;
       records := [ source_row (CFloat 3 (-1)) "a.png" "Tema A" "Texto A" (CInt 10) ] |}
  = UncaughtTypeError.
Proof. vm_compute. reflexivity. Qed.


Lemma batch_length (n : nat) : length (batch n) = n.
Proof. unfold batch. by rewrite length_fmap, length_seq. Defined.

Lemma failing_at_first (k n : nat) :
  (∀ j, j < k → insert_fault (failing_at k n) j = None)
  ∧ insert_fault (failing_at k n) k = Some n.
Proof.
  split.
  - intros j Hj. simpl. destruct (decide (j = k)) as [->|]; [lia | done].
  - simpl. by rewrite decide_True.
Defined.

(** C3 on the scenario. *)
Lemma fixed_defaults_invariant_scenario :
  validate_and_normalize scenario = ImportBatch scenario_batch
  ∧ NoDup ((λ rec : row, rec !! "redacao_id") <$> to_dict_records scenario_batch).
Proof.
  assert (validate_and_normalize scenario = ImportBatch scenario_batch) as Hv
    by (vm_compute; reflexivity).
  split; [exact Hv|]. exact (proj2 (fixed_defaults_invariant scenario scenario_batch Hv)).
Defined.

(** C10 on the scenario. *)
Lemma validation_preserves_order_scenario :
  validate_and_normalize scenario = ImportBatch scenario_batch
  ∧ to_dict_records scenario_batch `sublist_of` (to_destination_row <$> records scenario).
Proof.
  assert (validate_and_normalize scenario = ImportBatch scenario_batch) as Hv
    by (vm_compute; reflexivity).
  split; [exact Hv|]. exact (proj2 (validation_preserves_order scenario scenario_batch Hv)).
Defined.




(** C5 on a sheet without three of the columns. *)
Lemma missing_columns_gate_short_table :
  validate_and_normalize short_table
  = MissingColumnsError ["arquivo_nome_armazenamento"; "redacao_texto";
                         "co_redacao_grade_id"]
  ∧ ∃ w', import_action reliable short_table before = (inl Stop, w')
          ∧ statements w' = [] ∧ table w' = table before.
Proof.
  assert (∃ c, c ∈ REQUIRED_COLUMNS ∧ c ∉ columns short_table) as Hmiss.
  { exists "redacao_texto".
    split; apply (bool_decide_unpack _); vm_compute; exact I. }
  destruct (missing_columns_gate reliable short_table before Hmiss)
    as (Hv & _ & _ & w' & Hrun & _ & Hs & Ht).
  split; [exact Hv|]. exists w'. split; [exact Hrun|]. split; [exact Hs | exact Ht].
Defined.

(** C7 on a sheet in which no identifier is a number. *)
Lemma empty_batch_short_circuit_blank_table :
  validate_and_normalize blank_table = ImportBatch []
  ∧ ∃ w', import_action reliable blank_table before = (inl Stop, w')
          ∧ page w' = [st_warning MSG_NOTHING]
          ∧ statements w' = [] ∧ table w' = table before.
Proof.
  assert (validate_and_normalize blank_table = ImportBatch []) as Hv.
  { apply (proj2 empty_batch_short_circuit); [reflexivity|].
    repeat constructor. }
  split; [exact Hv|]. exact (proj1 empty_batch_short_circuit reliable blank_table before Hv).
Defined.

(** C4 on 1200 rows, when the third INSERT fails after writing 137
    rows. *)
Lemma chunked_insert_atomic_1200 :
  ∃ w', load (failing_at 2 137) (batch 1200) before = (inl Stop, w')
        ∧ length (table w') = 1000 ∧ inserted w' = 1000.
Proof.
  assert (batch 1200 ≠ []) as Hne.
  { intros Heq. apply (f_equal length) in Heq. rewrite batch_length in Heq.
    discriminate Heq. }
  destruct (chunked_insert_atomic (failing_at 2 137) (batch 1200) before Hne eq_refl)
    as (_ & _ & _ & _ & Hfault).
  destruct (Hfault 2 137) as (w' & Hrun & _ & _ & _ & _ & _ & H1200).
  - rewrite batch_length. unfold CHUNK. lia.
  - exact (proj1 (failing_at_first 2 137)).
  - exact (proj2 (failing_at_first 2 137)).
  - exists w'. split; [exact Hrun|]. apply H1200; [apply batch_length | reflexivity].
Defined.

(** C1 on the same run. *)
Lemma insert_failure_report_1200 :
  ∃ w', load (failing_at 2 137) (batch 1200) before = (inl Stop, w')
        ∧ last (page w') = Some (st_error MSG_INSERT_FAILED)
        ∧ inserted w' = 1000.
Proof.
  destruct (insert_failure_report (failing_at 2 137) (batch 1200) before 2 137 eq_refl)
    as (w' & Hrun & Hmsg & Hins & _).
  - rewrite batch_length. unfold CHUNK. lia.
  - exact (proj1 (failing_at_first 2 137)).
  - exact (proj2 (failing_at_first 2 137)).
  - exists w'. split; [exact Hrun|]. split; [exact Hmsg | exact Hins].
Defined.

(** The report of a failed insert is the same
    whether no row or a thousand rows were committed, so no count can be
    read off it. *)
Lemma insert_error_carries_no_count :
  ¬ ∃ carried : ui_event → nat,
      ∀ (srv : server) (df_insert : frame) (w w' : world) (e : ui_event),
        clears srv = true →
        load srv df_insert w = (inl Stop, w') →
        last (page w') = Some e →
        carried e = length (table w').
Proof.
  intros [carried Hclaim].
  assert (∀ k, k * CHUNK < 1200 →
               carried (st_error MSG_INSERT_FAILED) = k * CHUNK) as Hk.
  { intros k Hlt.
    destruct (load_fault (failing_at k 0) (batch 1200) k 0 before eq_refl)
      as (w' & Hrun & Ht & _ & Hp & _).
    - by rewrite batch_length.
    - apply failing_at_first.
    - apply failing_at_first.
    - rewrite (Hclaim (failing_at k 0) _ _ _ (st_error MSG_INSERT_FAILED) eq_refl Hrun).
      + rewrite Ht, length_take. unfold to_dict_records.
        rewrite length_fmap, batch_length. lia.
      + rewrite Hp, !app_assoc. apply last_snoc. }
  pose proof (Hk 0) as H0. pose proof (Hk 2) as H2. unfold CHUNK in *. lia.
Qed.

(** C9 on two loads of three rows into a table that held two
    other rows. *)
Lemma reimport_idempotent_three_rows :
  table (load reliable (batch 3) (load reliable (batch 3) before).2).2
  = to_dict_records (batch 3).
Proof.
  destruct (proj2 (reimport_idempotent (batch 3) before) reliable reliable
              (load reliable (batch 3) before).2
              (load reliable (batch 3) (load reliable (batch 3) before).2).2)
    as [H2 H1].
  - vm_compute. reflexivity.
  - vm_compute. reflexivity.
  - rewrite H2. exact H1.
Defined.



End Examples.

(* ===================================================================== *)
(** * More on the connection provider *)
(* ===================================================================== *)




Lemma lstrip_app_blank (pad s : string) :
  blank pad → PyStr.lstrip (pad +:+ s) = PyStr.lstrip s.
Proof.
  induction pad as [|a pad IH]; [done|]. intros [Ha Hs]%Forall_cons.
  change (String a pad +:+ s) with (String a (pad +:+ s)). simpl. rewrite Ha. by apply IH.
Qed.

Lemma rstrip_app_blank (s pad : string) :
  blank pad → PyStr.rstrip (s +:+ pad) = PyStr.rstrip s.
Proof.
  intros Hpad. induction s as [|a s IH].
  - change (EmptyString +:+ pad) with pad. simpl.
    induction pad as [|b pad IHp]; [done|]. apply Forall_cons in Hpad as [Hb Hpad].
    simpl. rewrite (IHp Hpad). by rewrite Hb.
  - change (String a s +:+ pad) with (String a (s +:+ pad)). simpl. by rewrite IH.
Qed.

(** A string that ends in a character that is no blank is its own
    [rstrip]. *)
Lemma rstrip_ends_nonblank (s : string) (b : ascii) :
  PyStr.isspace b = false → PyStr.rstrip (s +:+ String b EmptyString) = s +:+ String b EmptyString.
Proof.
  intros Hb. induction s as [|a s IH].
  - simpl. by rewrite Hb.
  - change (String a s +:+ String b EmptyString) with (String a (s +:+ String b EmptyString)).
    simpl. rewrite IH. by destruct s.
Qed.

Lemma strip_wrapped (pad1 pad2 s : string) (a b : ascii) :
  blank pad1 → blank pad2 → PyStr.isspace a = false → PyStr.isspace b = false →
  PyStr.strip (pad1 +:+ String a (s +:+ String b EmptyString) +:+ pad2)
  = String a (s +:+ String b EmptyString).
Proof.
  intros H1 H2 Ha Hb. unfold PyStr.strip. rewrite lstrip_app_blank by done.
  change (String a (s +:+ String b EmptyString) +:+ pad2)
    with (String a ((s +:+ String b EmptyString) +:+ pad2)).
  simpl. rewrite Ha.
  change (String a ((s +:+ String b EmptyString) +:+ pad2))
    with (String a (s +:+ String b EmptyString) +:+ pad2).
  rewrite rstrip_app_blank by done.
  apply (rstrip_ends_nonblank (String a s) b Hb).
Qed.

Lemma endswith_snoc (s : string) (b : ascii) :
  PyStr.endswith (s +:+ String b EmptyString) b = true.
Proof.
  induction s as [|a s IH]; [simpl; by apply bool_decide_eq_true|].
  change (String a s +:+ String b EmptyString) with (String a (s +:+ String b EmptyString)).
  simpl. rewrite IH. by destruct s.
Qed.

Lemma length_snoc (s : string) (b : ascii) :
  String.length (s +:+ String b EmptyString) = S (String.length s).
Proof.
  induction s as [|a s IH]; [done|].
  change (String a s +:+ String b EmptyString) with (String a (s +:+ String b EmptyString)).
  simpl. by rewrite IH.
Qed.

Lemma substring_prefix (s t : string) :
  String.substring 0 (String.length s) (s +:+ t) = s.
Proof.
  induction s as [|a s IH]; [by destruct t|].
  change (String a s +:+ t) with (String a (s +:+ t)). simpl. by rewrite IH.
Qed.

Lemma slice_wrapped (s : string) (a b : ascii) :
  PyStr.slice_1_m1 (String a (s +:+ String b EmptyString)) = s.
Proof.
  unfold PyStr.slice_1_m1. cbn [String.length]. rewrite length_snoc.
  replace (S (S (String.length s)) - 2) with (String.length s) by lia.
  cbn [String.substring]. apply substring_prefix.
Qed.


(** X2. A value wrapped in one pair of quotes inside one pair of square
    brackets, with blanks around, is cleaned to the value itself, whatever
    the value is. *)
Theorem clean_env_unwraps (pad1 pad2 v : string) (q : ascii) :
  blank pad1 → blank pad2 → q = dquote ∨ q = "'"%char →
  _clean_env
    (Some (pad1
           +:+ String "[" (String q (v +:+ String q EmptyString) +:+ String "]" EmptyString)
           +:+ pad2))
  = v.
Proof.
  intros H1 H2 Hq. unfold _clean_env.
  assert (PyStr.isspace q = false) as Hqs by (by destruct Hq as [-> | ->]).
  set (inner := String q (v +:+ String q EmptyString)).
  rewrite strip_wrapped by done.
  assert (PyStr.startswith (String "[" (inner +:+ String "]" EmptyString)) "[" = true) as ->
    by done.
  assert (PyStr.endswith (String "[" (inner +:+ String "]" EmptyString)) "]" = true) as ->
    by apply (endswith_snoc (String "[" inner) "]").
  cbn [andb]. rewrite slice_wrapped.
  assert (PyStr.strip inner = inner) as ->.
  { pose proof (strip_wrapped EmptyString EmptyString v q q) as Hs.
    rewrite string_app_nil_r in Hs. apply Hs; done || constructor. }
  assert (PyStr.endswith inner q = true) as He by apply (endswith_snoc (String q v) q).
  assert (PyStr.slice_1_m1 inner = v) as Hv by apply slice_wrapped.
  destruct Hq as [-> | ->].
  - assert (PyStr.startswith inner dquote = true) as -> by done.
    by rewrite He.
  - assert (PyStr.startswith inner dquote = false) as -> by done.
    assert (PyStr.startswith inner "'" = true) as -> by done.
    by rewrite He.
Qed.


Lemma build_engine_outcome_lemma (environ : gmap string string) (probe : string → bool) :
  (is_Some (build_engine environ probe).1 ↔ (build_engine environ probe).2 = None)
  ∧ ((build_engine environ probe).1 = Some {| engine_url := connection_uri environ |}
     ↔ missing_settings environ = [] ∧ probe (connection_uri environ) = true)
  ∧ (∀ engine, (build_engine environ probe).1 = Some engine →
               engine_url engine = connection_uri environ)
  ∧ (missing_settings environ ≠ [] →
     ∀ probe', build_engine environ probe' = build_engine environ probe).
Proof.
  unfold build_engine. case_bool_decide as Hm; simpl.
  - split; [split; [by intros [??] | done]|]. split; [|split; [done|]].
    + split; [done | by intros [? _]].
    + done.
  - assert (missing_settings environ = []) as Hnil
      by (by destruct (decide (missing_settings environ = []))).
    destruct (probe (connection_uri environ)); simpl.
    + split; [split; [done | by eexists]|]. split; [done|].
      split; [by intros ? [= <-] | done].
    + split; [split; [by intros [??] | done]|]. split; [|split; [done | done]].
      split; [done | by intros [_ ?]].
Qed.


(** X5. The missing settings are listed in the order host, port, database,
    user name, password, each at most once; a port that is not set at
    all is never among them, since it defaults to 3306. *)
Theorem missing_settings_order (environ : gmap string string) :
  missing_settings environ
    `sublist_of` ["DB_HOST"; "DB_PORT"; "DB_DATABASE"; "DB_USERNAME"; "DB_PASSWORD"]
  ∧ (environ !! "DB_PORT" = None →
     ("DB_PORT" ∉ missing_settings environ)
     ∧ cleaned_settings environ !! 1%nat = Some ("DB_PORT", "3306")).
Proof.
  split.
  - unfold missing_settings.
    change ["DB_HOST"; "DB_PORT"; "DB_DATABASE"; "DB_USERNAME"; "DB_PASSWORD"]
      with ((cleaned_settings environ).*1).
    apply fmap_sublist, sublist_filter.
  - intros Hport. split; [|unfold cleaned_settings; by rewrite Hport].
    rewrite missing_settings_spec. unfold cleaned_settings. rewrite Hport.
    intros Hin. repeat (apply elem_of_cons in Hin as [Hin|Hin]; [by simplify_eq|]).
    by apply elem_of_nil in Hin.
Qed.

(* ===================================================================== *)
(** * Properties of the tabular reader *)
(* ===================================================================== *)

Ltac each_ascii a :=
  destruct a as [[] [] [] [] [] [] [] []]; vm_compute; try done.

Lemma lower_char_idem (a : ascii) :
  PyText.lower_char (PyText.lower_char a) = PyText.lower_char a.
Proof. each_ascii a. Qed.

Lemma lower_char_not_upper (a : ascii) :
  (65 <=? nat_of_ascii (PyText.lower_char a))%nat
  && (nat_of_ascii (PyText.lower_char a) <=? 90)%nat = false.
Proof. each_ascii a. Qed.

Lemma lower_char_isspace (a : ascii) :
  PyStr.isspace (PyText.lower_char a) = PyStr.isspace a.
Proof. each_ascii a. Qed.

Lemma lower_char_space (a : ascii) :
  PyText.lower_char a = " "%char ↔ a = " "%char.
Proof. each_ascii a. Qed.

Lemma lower_app (s t : string) :
  PyText.lower (s +:+ t) = PyText.lower s +:+ PyText.lower t.
Proof.
  induction s as [|a s IH]; [done|].
  change (String a s +:+ t) with (String a (s +:+ t)). simpl. by rewrite IH.
Qed.

Lemma replace_app (o n : ascii) (s t : string) :
  PyText.replace o n (s +:+ t) = PyText.replace o n s +:+ PyText.replace o n t.
Proof.
  induction s as [|a s IH]; [done|].
  change (String a s +:+ t) with (String a (s +:+ t)). simpl. by rewrite IH.
Qed.

Lemma lower_idem (s : string) : PyText.lower (PyText.lower s) = PyText.lower s.
Proof. induction s as [|a s IH]; [done|]. simpl. by rewrite lower_char_idem, IH. Qed.

Lemma replace_idem (o n : ascii) (s : string) :
  n ≠ o → PyText.replace o n (PyText.replace o n s) = PyText.replace o n s.
Proof.
  intros Hne. induction s as [|a s IH]; [done|]. simpl. rewrite IH. f_equal.
  destruct (decide (a = o)) as [->|Ha].
  - rewrite (bool_decide_true (o = o)) by done. by rewrite bool_decide_false.
  - rewrite (bool_decide_false (a = o)) by done. by rewrite bool_decide_false.
Qed.

Lemma lower_replace_space (s : string) :
  PyText.lower (PyText.replace " " "_" s) = PyText.replace " " "_" (PyText.lower s).
Proof.
  induction s as [|a s IH]; [done|]. simpl. rewrite IH. f_equal.
  case_bool_decide as Ha.
  - subst a. by rewrite bool_decide_true.
  - rewrite bool_decide_false; [done|]. by rewrite lower_char_space.
Qed.

(** The shape of a string without blanks at its ends. *)
Lemma lstrip_shape (s : string) :
  PyStr.lstrip s = EmptyString
  ∨ ∃ a t, PyStr.lstrip s = String a t ∧ PyStr.isspace a = false.
Proof.
  induction s as [|a s IH]; [by left|]. simpl.
  destruct (PyStr.isspace a) eqn:Ha; [done|]. right. eauto.
Qed.

Lemma rstrip_shape (s : string) :
  PyStr.rstrip s = EmptyString
  ∨ ∃ t b, PyStr.rstrip s = t +:+ String b EmptyString ∧ PyStr.isspace b = false.
Proof.
  induction s as [|a s [IH|(t & b & IH & Hb)]]; [by left|..]; simpl; rewrite IH.
  - destruct (PyStr.isspace a) eqn:Ha; [by left|]. right. by exists EmptyString, a.
  - right. exists (String a t), b. split; [|done]. by destruct t.
Qed.

Lemma strip_shape (s : string) :
  PyStr.strip s = EmptyString
  ∨ ∃ a, PyStr.isspace a = false
         ∧ (PyStr.strip s = String a EmptyString
            ∨ ∃ t b, PyStr.strip s = String a (t +:+ String b EmptyString)
                     ∧ PyStr.isspace b = false).
Proof.
  unfold PyStr.strip. destruct (lstrip_shape s) as [->|(a & t & -> & Ha)]; [by left|].
  right. exists a. split; [done|]. simpl.
  destruct (rstrip_shape t) as [->|(t' & b & -> & Hb)].
  - left. by rewrite Ha.
  - right. exists t', b. split; [|done]. by destruct t'.
Qed.

Lemma strip_single (a : ascii) :
  PyStr.isspace a = false → PyStr.strip (String a EmptyString) = String a EmptyString.
Proof. intros Ha. unfold PyStr.strip. simpl. rewrite Ha. simpl. by rewrite Ha. Qed.

Lemma strip_ends (a b : ascii) (t : string) :
  PyStr.isspace a = false → PyStr.isspace b = false →
  PyStr.strip (String a (t +:+ String b EmptyString)) = String a (t +:+ String b EmptyString).
Proof.
  intros Ha Hb. pose proof (strip_wrapped EmptyString EmptyString t a b) as Hs.
  rewrite string_app_nil_r in Hs. apply Hs; done || constructor.
Qed.

Lemma space_replaced_isspace (a : ascii) :
  PyStr.isspace a = false →
  PyStr.isspace (if bool_decide (a = " "%char) then "_"%char else a) = false.
Proof. intros Ha. by case_bool_decide. Qed.

(** A normalised column name has no blanks at its ends. *)
Lemma normalize_column_stripped (c : string) :
  PyStr.strip (normalize_column c) = normalize_column c.
Proof.
  unfold normalize_column.
  destruct (strip_shape c) as [->|(a & Ha & [->|(t & b & -> & Hb)])]; [done|..].
  - simpl. apply strip_single, space_replaced_isspace. by rewrite lower_char_isspace.
  - cbn [PyText.lower PyText.replace]. rewrite lower_app, replace_app.
    cbn [PyText.lower PyText.replace].
    apply strip_ends; apply space_replaced_isspace; by rewrite lower_char_isspace.
Qed.

Lemma replace_lower_chars (s : string) :
  Forall (λ a, a ≠ " "%char
               ∧ (65 <=? nat_of_ascii a)%nat && (nat_of_ascii a <=? 90)%nat = false)
         (list_ascii_of_string (PyText.replace " " "_" (PyText.lower s))).
Proof.
  induction s as [|a s IH]; [constructor|]. simpl. constructor; [|done].
  case_bool_decide as Ha; [done|]. split; [done | apply lower_char_not_upper].
Qed.

(** X6. After normalisation a column name has no space, no upper-case
    letter and no blank at either end. *)
Theorem normalize_column_form (c : string) :
  PyText.ascii_only c = true →
  Forall (λ a, a ≠ " "%char
               ∧ (65 <=? nat_of_ascii a)%nat && (nat_of_ascii a <=? 90)%nat = false)
         (list_ascii_of_string (normalize_column c))
  ∧ PyStr.strip (normalize_column c) = normalize_column c.
Proof.
  intros _. split; [apply replace_lower_chars | apply normalize_column_stripped].
Qed.

(** X7. Normalising a column name twice is the same as normalising it
    once. *)
Theorem normalize_column_idempotent (c : string) :
  PyText.ascii_only c = true →
  normalize_column (normalize_column c) = normalize_column c.
Proof.
  intros _. unfold normalize_column at 1. rewrite normalize_column_stripped.
  unfold normalize_column.
  by rewrite lower_replace_space, lower_idem, replace_idem.
Qed.




(* ===================================================================== *)
(** * More on the validator *)
(* ===================================================================== *)

Section MoreValidation.
Context `{PandasText}.


(** X9. Every record of a batch has exactly the fourteen destination
    columns, whatever other columns the sheet had. *)
Theorem batch_columns (t : Table) (df_insert : frame) :
  validate_and_normalize t = ImportBatch df_insert →
  Forall (λ rec : row, dom rec = list_to_set INSERT_COLUMNS) (to_dict_records df_insert).
Proof.
  intros (_ & _ & ->)%validate_batch_inv. unfold to_dict_records, expected_batch.
  rewrite <- list_fmap_compose. apply Forall_fmap, Forall_forall. intros [i r] _.
  unfold compose. simpl. unfold to_destination_row. by rewrite dom_list_to_map_L.
Qed.




Lemma filter_all {A} (P : A → Prop) `{!∀ x, Decision (P x)} (l : list A) :
  Forall P l → filter P l = l.
Proof. induction 1 as [|x l Hx _ IH]; [done|]. by rewrite filter_cons_True, IH. Qed.

Lemma keep_last_distinct (l : frame) :
  NoDup ((λ ir : nat * row, valid_id ir.2) <$> l) → keep_last l = l.
Proof.
  induction l as [|ir l IH]; [done|]. rewrite fmap_cons. intros [Hnin Hnd]%NoDup_cons.
  simpl. rewrite decide_False; [by rewrite IH|].
  intros (jr & Hin & Heq)%Exists_exists. apply Hnin. rewrite <- Heq.
  by apply (list_elem_of_fmap_2 (λ ir : nat * row, valid_id ir.2)).
Qed.

(** X12. A sheet in which every identifier is valid and no identifier
    repeats passes whole: the batch has one row per input row, in the
    same order and under the same labels. *)
Theorem clean_sheet_passes_whole (t : Table) :
  missing_cols t = [] → casts_safely (records t) →
  Forall (λ r, is_Some (valid_id r)) (records t) →
  NoDup (valid_id <$> records t) →
  validate_and_normalize t
  = ImportBatch (imap (λ i r, (i, to_destination_row r)) (records t)).
Proof.
  intros Hm Hs Hv Hnd. rewrite validate_batch by done. f_equal.
  unfold expected_batch, survivors.
  rewrite filter_all.
  2:{ apply Forall_forall. intros [i r] Hin%(list_elem_of_fmap_2 snd).
      rewrite frame_of_records in Hin. rewrite Forall_forall in Hv. by apply Hv. }
  rewrite keep_last_distinct.
  2:{ replace ((λ ir : nat * row, valid_id ir.2) <$> frame_of t)
        with (valid_id <$> (frame_of t).*2) by (by rewrite <- list_fmap_compose).
      by rewrite frame_of_records. }
  unfold frame_of. by rewrite fmap_imap.
Qed.

Lemma astype_Int64_in_range (n : numeric) (z : Z) :
  astype_Int64 n = Some (CInt z) → astype_Int64 (NInt z) = Some (CInt z).
Proof.
  assert (∀ v, in_int64 v = Some z → in_int64 z = Some z) as Hin.
  { intros v. unfold in_int64.
    destruct ((INT64_MIN <=? v)%Z && (v <=? INT64_MAX)%Z) eqn:Hv; [|done].
    intros [= <-]. by rewrite Hv. }
  destruct n as [|v|m e]; simpl; [done|..].
  - destruct (in_int64 v) eqn:Hv; [|done]. intros [= <-]. by rewrite (Hin _ Hv).
  - destruct (float_integral m e) as [v|]; [|done]. simpl.
    destruct (in_int64 v) eqn:Hv; [|done]. intros [= <-]. by rewrite (Hin _ Hv).
Qed.

Lemma Int64_cell_again (n : numeric) :
  Int64_cell (to_numeric (Int64_cell n)) = Int64_cell n
  ∧ is_Some (astype_Int64 (to_numeric (Int64_cell n))).
Proof.
  unfold Int64_cell.
  destruct (astype_Int64_cases n) as [-> | [-> | [z Hz]]]; [by eauto..|].
  rewrite Hz. change (to_numeric (default CNull (Some (CInt z)))) with (NInt z).
  rewrite (astype_Int64_in_range _ _ Hz). eauto.
Qed.

Lemma cell_at_destination (r : row) :
  cell_at (to_destination_row r) "redacao_id" = Int64_cell (id_of r)
  ∧ cell_at (to_destination_row r) "co_redacao_grade_id" = Int64_cell (grade_of r)
  ∧ Forall (λ c, ∃ s, cell_at (to_destination_row r) c = CStr s)
           ["arquivo_nome_armazenamento"; "tema"; "redacao_texto"].
Proof. split; [done|]. split; [done|]. repeat constructor; by eexists. Qed.

(** A destination row is its own projection. *)
Lemma to_destination_row_again (r : row) :
  to_destination_row (to_destination_row r) = to_destination_row r.
Proof.
  unfold to_destination_row at 1. unfold id_of, grade_of.
  destruct (cell_at_destination r) as (-> & -> & Htexts).
  destruct (Int64_cell_again (id_of r)) as [-> _].
  destruct (Int64_cell_again (grade_of r)) as [-> _].
  assert (∀ c, c ∈ ["arquivo_nome_armazenamento"; "tema"; "redacao_texto"] →
               CStr (fillna_astype_str (cell_at (to_destination_row r) c))
               = cell_at (to_destination_row r) c) as Htext.
  { intros c Hc. rewrite Forall_forall in Htexts. destruct (Htexts c Hc) as [s ->]. done. }
  rewrite !Htext by (repeat ((by left) || right)). done.
Qed.

(** X13. Validating the records of a batch again, as a sheet with the
    destination columns, gives back exactly these records, in the same
    order. *)
Theorem validation_idempotent (t : Table) (df_insert : frame) :
  validate_and_normalize t = ImportBatch df_insert →
  validate_and_normalize
    {| columns := INSERT_COLUMNS; records := to_dict_records df_insert |}
  = ImportBatch (imap (λ i rec, (i, rec)) (to_dict_records df_insert)).
Proof.
  intros (_ & _ & ->)%validate_batch_inv.
  assert (to_dict_records (expected_batch t) = to_destination_row <$> (survivors t).*2) as ->.
  { unfold to_dict_records, expected_batch. by rewrite <- !list_fmap_compose. }
  pose proof (survivors_valid t) as Hvalid.
  assert (∀ r, valid_id (to_destination_row r) = valid_id r) as Hid.
  { intros r. unfold valid_id at 1. unfold id_of at 1.
    destruct (cell_at_destination r) as (-> & _ & _). unfold valid_id, Int64_cell.
    destruct (astype_Int64_cases (id_of r)) as [-> | [-> | [z Hz]]]; [done..|].
    rewrite Hz. change (to_numeric (default CNull (Some (CInt z)))) with (NInt z).
    by rewrite (astype_Int64_in_range _ _ Hz). }
  rewrite clean_sheet_passes_whole.
  - f_equal. apply imap_ext. intros i rec [r [-> _]]%list_elem_of_lookup_2%list_elem_of_fmap.
    by rewrite to_destination_row_again.
  - done.
  - apply casts_safely_forall. cbn [records]. split.
    + intros rec [r [-> _]]%list_elem_of_fmap _. unfold id_of.
      destruct (cell_at_destination r) as (-> & _ & _). apply Int64_cell_again.
    + intros rec [r [-> _]]%list_elem_of_fmap _. unfold grade_of.
      destruct (cell_at_destination r) as (_ & -> & _). apply Int64_cell_again.
  - cbn [records]. rewrite Forall_fmap, Forall_fmap. eapply Forall_impl; [exact Hvalid|].
    intros [i r] Hv. unfold compose. simpl in *. by rewrite Hid.
  - cbn [records]. rewrite <- !list_fmap_compose.
    rewrite (list_fmap_ext _ (λ ir : nat * row, valid_id ir.2) (survivors t)).
    + apply keep_last_NoDup.
    + intros i [j r] _. unfold compose. simpl. apply Hid.
Qed.

(** ** Columns the importer does not read *)

Lemma same_required_cells (r r' : row) :
  same_required r r' →
  cell_at r "redacao_id" = cell_at r' "redacao_id"
  ∧ cell_at r "arquivo_nome_armazenamento" = cell_at r' "arquivo_nome_armazenamento"
  ∧ cell_at r "tema" = cell_at r' "tema"
  ∧ cell_at r "redacao_texto" = cell_at r' "redacao_texto"
  ∧ cell_at r "co_redacao_grade_id" = cell_at r' "co_redacao_grade_id".
Proof.
  unfold same_required, REQUIRED_COLUMNS. intros Hs.
  repeat (apply Forall_cons in Hs as [? Hs]). done.
Qed.

Lemma same_required_valid_id (r r' : row) :
  same_required r r' → valid_id r = valid_id r'.
Proof.
  intros (Hid & _)%same_required_cells. unfold valid_id, id_of. by rewrite Hid.
Qed.

Lemma same_required_destination (r r' : row) :
  same_required r r' → to_destination_row r = to_destination_row r'.
Proof.
  intros (Hid & Ha & Ht & Hx & Hg)%same_required_cells.
  unfold to_destination_row, id_of, grade_of. by rewrite Hid, Ha, Ht, Hx, Hg.
Qed.

Lemma same_required_casts (rows rows' : list row) :
  Forall2 same_required rows rows' → casts_safely rows → casts_safely rows'.
Proof.
  unfold casts_safely. induction 1 as [|r r' rows rows' Hr _ IH]; [done|].
  intros [Hhd Htl]%Forall_cons. apply Forall_cons. split; [|by apply IH].
  pose proof (same_required_valid_id r r' Hr) as Hv.
  apply same_required_cells in Hr as (Hid & _ & _ & _ & Hg).
  unfold id_of, grade_of in *. by rewrite <- Hid, <- Hg, <- Hv.
Qed.

(** What validation reads of a labelled row: its label, its identifier
    and its projection. *)
Lemma keep_last_reads (l l' : frame) :
  Forall2 (λ ir ir' : nat * row, ir.1 = ir'.1 ∧ valid_id ir.2 = valid_id ir'.2
                                 ∧ to_destination_row ir.2 = to_destination_row ir'.2) l l' →
  Forall2 (λ ir ir' : nat * row, ir.1 = ir'.1 ∧ valid_id ir.2 = valid_id ir'.2
                                 ∧ to_destination_row ir.2 = to_destination_row ir'.2)
          (keep_last l) (keep_last l').
Proof.
  induction 1 as [|ir ir' l l' Hr Hl IH]; [constructor|]. simpl.
  assert (Exists (λ jr : nat * row, valid_id jr.2 = valid_id ir.2) l
          ↔ Exists (λ jr : nat * row, valid_id jr.2 = valid_id ir'.2) l') as Hex.
  { destruct Hr as (_ & Hv & _). rewrite Hv. clear IH. induction Hl as [|jr jr' l l' Hj _ IH].
    - by rewrite !Exists_nil.
    - rewrite !Exists_cons, IH. destruct Hj as (_ & -> & _). done. }
  destruct (decide _) as [He|He], (decide _) as [He'|He']; try tauto.
  by constructor.
Qed.

Lemma filter_valid_reads (l l' : frame) :
  Forall2 (λ ir ir' : nat * row, ir.1 = ir'.1 ∧ valid_id ir.2 = valid_id ir'.2
                                 ∧ to_destination_row ir.2 = to_destination_row ir'.2) l l' →
  Forall2 (λ ir ir' : nat * row, ir.1 = ir'.1 ∧ valid_id ir.2 = valid_id ir'.2
                                 ∧ to_destination_row ir.2 = to_destination_row ir'.2)
          (filter (λ ir : nat * row, is_Some (valid_id ir.2)) l)
          (filter (λ ir : nat * row, is_Some (valid_id ir.2)) l').
Proof.
  induction 1 as [|ir ir' l l' Hr Hl IH]; [constructor|].
  rewrite !filter_cons. destruct Hr as (H1 & Hv & H3).
  destruct (decide _) as [He|He], (decide _) as [He'|He'];
    try (by constructor); simpl in *; rewrite Hv in He; done.
Qed.

Lemma expected_batch_reads (t t' : Table) :
  Forall2 same_required (records t) (records t') → expected_batch t = expected_batch t'.
Proof.
  intros Hrows. unfold expected_batch, survivors.
  assert (Forall2 (λ ir ir' : nat * row, ir.1 = ir'.1 ∧ valid_id ir.2 = valid_id ir'.2
                     ∧ to_destination_row ir.2 = to_destination_row ir'.2)
                  (frame_of t) (frame_of t')) as Hf.
  { unfold frame_of. apply Forall2_same_length_lookup. split.
    - rewrite !length_imap. by eapply Forall2_length.
    - intros i [j r] [j' r'] Hi Hi'.
      rewrite list_lookup_imap in Hi. rewrite list_lookup_imap in Hi'.
      destruct (records t !! i) as [x|] eqn:Hx; [|done].
      destruct (records t' !! i) as [x'|] eqn:Hx'; [|done].
      simpl in Hi, Hi'. simplify_eq. simpl.
      pose proof (Forall2_lookup_lr _ _ _ _ _ _ Hrows Hx Hx') as Hs.
      split; [done|]. split; [by apply same_required_valid_id
                             | by apply same_required_destination]. }
  apply filter_valid_reads, keep_last_reads in Hf.
  induction Hf as [|ir ir' l l' (H1 & _ & H3) _ IH]; [done|].
  rewrite !fmap_cons. by rewrite IH, H1, H3.
Qed.

(** X14. Validation reads the five required columns only: two tables
    that miss the same required columns and whose rows agree, one by one,
    on the cells of the required columns give the same outcome, whatever
    other columns and cells they have. *)
Theorem other_columns_ignored (t t' : Table) :
  missing_cols t = missing_cols t' →
  Forall2 same_required (records t) (records t') →
  validate_and_normalize t = validate_and_normalize t'.
Proof.
  intros Hm Hrows. destruct (decide (missing_cols t = [])) as [Hnil|Hnil].
  - assert (missing_cols t' = []) as Hnil' by congruence.
    destruct (decide (casts_safely (records t))) as [Hs|Hs].
    + rewrite !validate_batch; try done.
      * f_equal. by apply expected_batch_reads.
      * by eapply same_required_casts.
    + rewrite !validate_raises; try done.
      intros Hs'. apply Hs. eapply same_required_casts; [|done].
      clear -Hrows. induction Hrows as [|r r' ?? Hr _ IH]; constructor; [|done].
      unfold same_required in *. eapply Forall_impl; [exact Hr|]. by intros c ->.
  - rewrite !validate_missing; congruence.
Qed.

End MoreValidation.

(* ===================================================================== *)
(** * More on the loader and on the import action *)
(* ===================================================================== *)

Lemma ceil_div_spec (n s k : nat) : 0 < s → k < (n + s - 1) `div` s ↔ k * s < n.
Proof.
  intros Hs. split; intros Hk.
  - assert (S k ≤ (n + s - 1) `div` s) as Hle by lia.
    pose proof (Nat.Div0.mul_div_le (n + s - 1) s). nia.
  - unfold lt. apply Nat.div_le_lower_bound; lia.
Qed.

(** X15. [range(0, stop, step)] holds exactly the multiples of [step]
    below [stop], each once and in increasing order; it is empty when
    [stop] is 0. *)
Theorem py_range_spec (stop step : nat) :
  0 < step →
  (∀ x, x ∈ py_range stop step ↔ x < stop ∧ ∃ i, x = i * step)
  ∧ (∀ i j x y, i < j → py_range stop step !! i = Some x →
                py_range stop step !! j = Some y → x < y)
  ∧ (stop = 0 → py_range stop step = []).
Proof.
  intros Hs. unfold py_range. split; [|split].
  - intros x. rewrite list_elem_of_fmap. split.
    + intros (i & -> & Hi%elem_of_seq). split; [|by exists i].
      apply ceil_div_spec; [done | lia].
    + intros (Hx & i & ->). exists i. split; [done|]. apply elem_of_seq.
      split; [lia|]. simpl. by apply ceil_div_spec.
  - intros i j x y Hij. rewrite !list_lookup_fmap.
    intros (i' & Hi & ->)%fmap_Some (j' & Hj & ->)%fmap_Some.
    apply lookup_seq in Hi as [-> _]. apply lookup_seq in Hj as [-> _]. nia.
  - intros ->. replace ((0 + step - 1) `div` step) with 0; [done|].
    symmetry. apply Nat.div_small. lia.
Qed.

Lemma chunk_payload_bounds (df : frame) (j : nat) :
  j < chunk_count (length df) → 1 ≤ length (chunk_payload df j) ≤ 500.
Proof.
  intros Hj%chunk_count_spec. rewrite chunk_payload_length. unfold CHUNK in *. lia.
Qed.

Lemma clear_statements_shape (srv : server) :
  clear_statements srv = [TRUNCATE] ++ (if truncate_ok srv then [] else [DELETE]).
Proof. unfold clear_statements. by destruct (truncate_ok srv). Qed.

(** X16. The statements of a load, whatever the server answers: TRUNCATE
    first; DELETE next exactly when TRUNCATE was refused; then only
    INSERTs, of consecutive chunks from the first on, each with at least
    one and at most 500 rows. *)
Theorem load_statements (srv : server) (df_insert : frame) (w : world) :
  ∃ m, m ≤ chunk_count (length df_insert)
       ∧ statements (load srv df_insert w).2
         = statements w ++ [TRUNCATE]
             ++ (if truncate_ok srv then [] else [DELETE])
             ++ (INSERT ∘ chunk_payload df_insert <$> seq 0 m)
       ∧ ∀ j, j < m → 1 ≤ length (chunk_payload df_insert j) ≤ 500.
Proof.
  destruct (clears srv) eqn:Hc.
  - destruct (first_fault_cases srv (chunk_count (length df_insert)))
      as [Hok|(k & n & Hk & Hf & Hfirst)].
    + destruct (load_ok srv df_insert w Hc Hok) as (w' & -> & _ & Hs & _).
      exists (chunk_count (length df_insert)). split; [done|]. split.
      * simpl. by rewrite Hs, clear_statements_shape, <- !app_assoc.
      * intros j Hj. by apply chunk_payload_bounds.
    + pose proof Hk as Hk'%chunk_count_spec.
      destruct (load_fault srv df_insert k n w Hc Hk' Hfirst Hf) as (w' & -> & _ & Hs & _).
      exists (S k). split; [lia|]. split.
      * simpl. by rewrite Hs, clear_statements_shape, <- !app_assoc.
      * intros j Hj. apply chunk_payload_bounds. lia.
  - destruct (load_clear_fail srv df_insert w Hc) as (w' & -> & _ & Hs & _).
    exists 0. split; [lia|]. split; [|intros j Hj; lia].
    apply orb_false_elim in Hc as [-> _]. simpl. by rewrite Hs.
Qed.

(** X17. When the server refuses both TRUNCATE and DELETE, the load stops
    on "Falha ao limpar a tabela de destino. ...", the table keeps its
    rows and no INSERT is sent. *)
Theorem clear_failure_stops (srv : server) (df_insert : frame) (w : world) :
  truncate_ok srv = false → delete_ok srv = false →
  ∃ w', load srv df_insert w = (inl Stop, w')
        ∧ table w' = table w
        ∧ statements w' = statements w ++ [TRUNCATE; DELETE]
        ∧ last (page w') = Some (st_error MSG_CLEAR_FAILED).
Proof.
  intros Ht Hd.
  destruct (load_clear_fail srv df_insert w) as (w' & Hl & Htab & Hs & Hp & _).
  { unfold clears. by rewrite Ht, Hd. }
  exists w'. split; [done|]. split; [done|]. split; [done|].
  rewrite Hp. change [st_info MSG_CLEARING; st_error MSG_CLEAR_FAILED]
    with ([st_info MSG_CLEARING] ++ [st_error MSG_CLEAR_FAILED]).
  rewrite app_assoc. apply last_snoc.
Qed.

(** X18. Once the table has been cleared, what a load leaves in it is a
    prefix of the batch, whatever fails later: the whole batch, or a
    whole number of chunks of 500 rows. *)
Theorem load_leaves_prefix (srv : server) (df_insert : frame) (w : world) :
  clears srv = true →
  table (load srv df_insert w).2 `prefix_of` to_dict_records df_insert
  ∧ (table (load srv df_insert w).2 = to_dict_records df_insert
     ∨ ∃ k, length (table (load srv df_insert w).2) = k * 500).
Proof.
  intros Hc.
  destruct (first_fault_cases srv (chunk_count (length df_insert)))
    as [Hok|(k & n & Hk & Hf & Hfirst)].
  - destruct (load_ok srv df_insert w Hc Hok) as (w' & -> & Ht & _). simpl.
    rewrite Ht. split; [done | by left].
  - apply chunk_count_spec in Hk.
    destruct (load_fault srv df_insert k n w Hc Hk Hfirst Hf) as (w' & -> & Ht & _).
    simpl. rewrite Ht. split; [apply prefix_take|]. right. exists k.
    rewrite length_take. unfold to_dict_records. rewrite length_fmap.
    unfold CHUNK in *. lia.
Qed.

(** ** The percentage shown *)

Lemma py_round_div_cases (a b : nat) :
  0 < b →
  a = b * (a `div` b) + a `mod` b ∧ a `mod` b < b
  ∧ ((2 * (a `mod` b) < b ∧ py_round_div a b = a `div` b)
     ∨ (b < 2 * (a `mod` b) ∧ py_round_div a b = S (a `div` b))
     ∨ (2 * (a `mod` b) = b
        ∧ (py_round_div a b = a `div` b ∨ py_round_div a b = S (a `div` b)))).
Proof.
  intros Hb. split; [apply Nat.div_mod; lia|]. split; [apply Nat.mod_upper_bound; lia|].
  unfold py_round_div.
  destruct (Nat.ltb_spec (2 * (a `mod` b)) b) as [Hlt|Hge]; [by left|].
  destruct (Nat.ltb_spec b (2 * (a `mod` b))) as [Hgt|Hle]; [right; by left|].
  right. right. split; [lia|]. destruct (Nat.even _); auto.
Qed.

Lemma py_round_div_exact (c b : nat) : 0 < b → py_round_div (c * b) b = c.
Proof.
  intros Hb. unfold py_round_div. rewrite Nat.div_mul, Nat.Div0.mod_mul by lia.
  destruct (Nat.ltb_spec (2 * 0) b); [done | lia].
Qed.

Lemma py_round_div_mono (a a' b : nat) :
  0 < b → a ≤ a' → py_round_div a b ≤ py_round_div a' b.
Proof.
  intros Hb Hle.
  pose proof (Nat.Div0.div_le_mono a a' b Hle) as Hq.
  destruct (decide (a `div` b = a' `div` b)) as [Heq|Hne].
  - unfold py_round_div. rewrite <- Heq.
    assert (a `mod` b ≤ a' `mod` b) as Hr.
    { pose proof (Nat.div_mod a b). pose proof (Nat.div_mod a' b). rewrite <- Heq in *. nia. }
    destruct (Nat.ltb_spec (2 * (a `mod` b)) b), (Nat.ltb_spec (2 * (a' `mod` b)) b),
      (Nat.ltb_spec b (2 * (a `mod` b))), (Nat.ltb_spec b (2 * (a' `mod` b)));
      try lia; destruct (Nat.even _); lia.
  - destruct (py_round_div_cases a b Hb) as (_ & _ & Ha).
    destruct (py_round_div_cases a' b Hb) as (_ & _ & Ha'). lia.
Qed.

Lemma progress_after_pct (total j : nat) :
  progress_after total j
  = progress (py_round_div (((j * CHUNK + CHUNK) `min` total) * 100) total).
Proof. reflexivity. Qed.

(** X19. On a load that completes, the percentages shown after the
    chunks never exceed 100, never decrease, and the last one is 100. *)
Theorem progress_reaches_100 (srv : server) (df_insert : frame) (w : world) :
  df_insert ≠ [] → clears srv = true →
  (∀ j, j < chunk_count (length df_insert) → insert_fault srv j = None) →
  ∃ w' pcts,
    load srv df_insert w = (inr (), w')
    ∧ page w'
      = page w ++ [st_info MSG_CLEARING; st_info MSG_INSERTING; progress 0]
          ++ (progress <$> pcts)
          ++ [st_success (msg_done (length df_insert))]
    ∧ length pcts = chunk_count (length df_insert)
    ∧ Forall (λ p, p ≤ 100) pcts
    ∧ (∀ i j p q, i ≤ j → pcts !! i = Some p → pcts !! j = Some q → p ≤ q)
    ∧ last pcts = Some 100.
Proof.
  intros Hne Hc Hok.
  destruct (load_ok srv df_insert w Hc Hok) as (w' & Hl & _ & _ & Hp & _).
  set (total := length df_insert) in *.
  assert (0 < total) as Htot by (subst total; destruct df_insert; [done | simpl; lia]).
  set (pct := λ j, py_round_div (((j * CHUNK + CHUNK) `min` total) * 100) total).
  exists w', (pct <$> seq 0 (chunk_count total)). split; [done|]. split.
  { rewrite Hp. by rewrite <- list_fmap_compose. }
  split; [by rewrite length_fmap, length_seq|]. split; [|split].
  - apply Forall_fmap, Forall_forall. intros j _. unfold compose, pct.
    etrans; [apply (py_round_div_mono _ (100 * total)); [done | lia]|].
    by rewrite py_round_div_exact.
  - intros i j p q Hij. rewrite !list_lookup_fmap.
    intros (i' & Hi & ->)%fmap_Some (j' & Hj & ->)%fmap_Some.
    apply lookup_seq in Hi as [-> _]. apply lookup_seq in Hj as [-> _].
    unfold pct. apply py_round_div_mono; [done|].
    assert ((0 + i) * CHUNK ≤ (0 + j) * CHUNK) by (apply Nat.mul_le_mono_r; lia). lia.
  - assert (0 < chunk_count total) as Hcc by (apply chunk_count_spec; lia).
    destruct (chunk_count total) as [|m] eqn:Hm; [lia|].
    rewrite seq_S, fmap_app. change (pct <$> [0 + m]) with [pct m].
    rewrite last_snoc. f_equal. unfold pct.
    rewrite Nat.min_r.
    + rewrite Nat.mul_comm. by apply py_round_div_exact.
    + destruct (decide (total ≤ m * CHUNK + CHUNK)) as [|Hn]; [done|].
      assert (S m < chunk_count total) by (apply chunk_count_spec; lia). lia.
Qed.

(** ** The import action as a whole *)

Section MoreImport.
Context `{PandasText}.



Lemma import_untouched (srv : server) (t : Table) (w : world) :
  (∀ df_insert, validate_and_normalize t = ImportBatch df_insert → df_insert = []) →
  ∃ h w', import_action srv t w = (inl h, w')
          ∧ table w' = table w ∧ statements w' = statements w
          ∧ (h = Uncaught "TypeError" ↔ validate_and_normalize t = UncaughtTypeError).
Proof.
  intros Hempty. unfold import_action.
  destruct (validate_and_normalize t) as [df|missing|] eqn:Hv.
  - rewrite (Hempty df eq_refl). eexists _, _. split; [done|]. by repeat split.
  - eexists _, _. split; [done|]. by repeat split.
  - eexists _, _. split; [done|]. by repeat split.
Qed.


(** X21. When validation gives no row to import (missing columns, an
    empty batch or the uncaught [TypeError]), the run ends early with no
    statement sent and the table as it was. *)
Theorem import_without_rows (srv : server) (t : Table) (w : world) :
  (∀ df_insert, validate_and_normalize t = ImportBatch df_insert → df_insert = []) →
  ∃ h w', import_action srv t w = (inl h, w')
          ∧ table w' = table w ∧ statements w' = statements w
          ∧ (h = Uncaught "TypeError" ↔ validate_and_normalize t = UncaughtTypeError).
Proof. apply import_untouched. Qed.

Context `{PandasReaders}.

(** One run of the page, after its status line. *)
Lemma page_run_after_status
    (environ : gmap string string) (probe : string → bool) (srv : server)
    (uploaded_file : option UploadedFile) (importar : bool) (w : world) :
  ∃ e,
    (e = st_success MSG_CONNECTED ∨ ∃ msg, e = st_error msg)
    ∧ ((build_engine environ probe).2 = None → e = st_success MSG_CONNECTED)
    ∧ page_run environ probe srv uploaded_file importar w
      = if importar then
          match (build_engine environ probe).1 with
          | None => (inl (Uncaught "AssertionError"), shown e w)
          | Some _ =>
              match uploaded_file with
              | None => (inl Stop, shown (st_warning MSG_NO_FILE) (shown e w))
              | Some file =>
                  match read_uploaded_file file with
                  | inl msg => (inl Stop, shown (st_error msg) (shown e w))
                  | inr df => import_action srv (table_of_sheet df) (shown e w)
                  end
              end
          end
        else (inr (), shown e w).
Proof.
  unfold page_run. destruct (build_engine environ probe) as [engine err].
  unfold mbind, script_bind. cbn [fst snd].
  case_bool_decide as Herr; cbn match.
  - exists (st_error (default EmptyString err)). split; [eauto|]. split.
    + intros ->. by destruct Herr.
    + destruct importar, engine, uploaded_file; try done.
      by destruct (read_uploaded_file _).
  - exists (st_success MSG_CONNECTED). split; [eauto|]. split; [done|].
    destruct importar, engine, uploaded_file; try done.
    by destruct (read_uploaded_file _).
Qed.


(** X23. With an engine and the button pressed: without a file the page
    shows the warning "Anexe um arquivo antes de importar."; with a file
    that the reader chosen by its name cannot read it shows "Falha ao ler
    a planilha. ..."; in both cases after the connection status, and the
    run stops there. *)
Theorem page_reports_unreadable_upload
    (environ : gmap string string) (probe : string → bool) (srv : server)
    (uploaded_file : option UploadedFile) (w : world) :
  is_Some (build_engine environ probe).1 →
  (∀ file df, uploaded_file = Some file → read_uploaded_file file ≠ inr df) →
  ∃ msg,
    page_run environ probe srv uploaded_file true w
    = (inl Stop, shown msg (shown (st_success MSG_CONNECTED) w))
    ∧ (uploaded_file = None → msg = st_warning MSG_NO_FILE)
    ∧ (is_Some uploaded_file → msg = st_error MSG_READ_FAILED).
Proof.
  intros [engine Heng] Hread.
  destruct (page_run_after_status environ probe srv uploaded_file true w)
    as (e & _ & He & ->).
  rewrite He.
  2:{ destruct (build_engine_outcome_lemma environ probe) as [Hx _]. apply Hx. by eexists. }
  rewrite Heng. destruct uploaded_file as [file|].
  - destruct (read_uploaded_file file) as [msg|df] eqn:Hr; [|by destruct (Hread file df)].
    exists (st_error msg). split; [done|]. split; [done|]. intros _. f_equal.
    unfold read_uploaded_file in Hr. repeat case_match; by simplify_eq.
  - exists (st_warning MSG_NO_FILE). split; [done|]. split; [done|]. by intros [??].
Qed.


End MoreImport.

(* ===================================================================== *)
(** * More worked examples *)
(* ===================================================================== *)

Section MoreExamples.
Import Sample Sample2.




(** X2 on the example of the docstring, with blanks around. *)
Lemma clean_env_unwraps_usuario :
  _clean_env (Some (" " +:+ String "[" (String dquote ("usuario" +:+ String dquote EmptyString)
                                        +:+ String "]" EmptyString) +:+ "  "))
  = "usuario".
Proof.
  apply (clean_env_unwraps " " "  " "usuario" dquote).
  - repeat constructor.
  - repeat constructor.
  - left. reflexivity.
Defined.


(** X5 on a configuration without port. *)
Lemma missing_settings_order_no_port :
  "DB_PORT" ∉ missing_settings broken_environ.
Proof.
  apply (proj2 (missing_settings_order broken_environ)). vm_compute. reflexivity.
Defined.

(** X6 on a header with blanks and capitals. *)
Lemma normalize_column_form_example :
  PyStr.strip (normalize_column " Redacao ID") = normalize_column " Redacao ID".
Proof.
  apply (normalize_column_form " Redacao ID"). vm_compute. reflexivity.
Defined.

(** X7 on the same header. *)
Lemma normalize_column_idempotent_example :
  normalize_column (normalize_column " Redacao ID") = normalize_column " Redacao ID".
Proof.
  apply normalize_column_idempotent. vm_compute. reflexivity.
Defined.


Lemma scenario_validated :
  validate_and_normalize scenario = ImportBatch scenario_batch.
Proof. vm_compute. reflexivity. Defined.

(** X9 on the scenario. *)
Lemma batch_columns_scenario :
  Forall (λ rec : row, dom rec = list_to_set INSERT_COLUMNS)
         (to_dict_records scenario_batch).
Proof. exact (batch_columns scenario scenario_batch scenario_validated). Defined.



Lemma distinct_table_safe : casts_safely (records distinct_table).
Proof. apply (bool_decide_unpack _). vm_compute. exact I. Defined.

(** X12 on a sheet with the identifiers 5 and "6". *)
Lemma clean_sheet_passes_whole_distinct :
  validate_and_normalize distinct_table
  = ImportBatch (imap (λ i r, (i, to_destination_row r)) (records distinct_table)).
Proof.
  apply clean_sheet_passes_whole.
  - reflexivity.
  - exact distinct_table_safe.
  - apply (bool_decide_unpack _). vm_compute. exact I.
  - apply (bool_decide_unpack _). vm_compute. exact I.
Defined.

(** X13 on the scenario. *)
Lemma validation_idempotent_scenario :
  validate_and_normalize
    {| columns := INSERT_COLUMNS; records := to_dict_records scenario_batch |}
  = ImportBatch (imap (λ i rec, (i, rec)) (to_dict_records scenario_batch)).
Proof. exact (validation_idempotent scenario scenario_batch scenario_validated). Defined.

(** X15 on [range(0, 1200, 500)]. *)
Lemma py_range_spec_1200 : 1000 ∈ py_range 1200 500 ∧ 1200 ∉ py_range 1200 500.
Proof.
  assert (0 < 500) as Hs by lia.
  destruct (py_range_spec 1200 500 Hs) as (Hin & _ & _). split.
  - apply Hin. split; [lia|]. exists 2. reflexivity.
  - intros [Hlt _]%Hin. lia.
Defined.

(** X16 on a load in which the second INSERT fails. *)
Lemma load_statements_failing :
  ∃ m, statements (load (failing_at 1 3) (batch 1200) before).2
       = [TRUNCATE; DELETE] ++ (INSERT ∘ chunk_payload (batch 1200) <$> seq 0 m).
Proof.
  destruct (load_statements (failing_at 1 3) (batch 1200) before) as (m & _ & Hs & _).
  exists m. exact Hs.
Defined.

(** X17 on an account without TRUNCATE and DELETE rights. *)
Lemma clear_failure_stops_read_only :
  ∃ w', load read_only (batch 3) before = (inl Stop, w') ∧ table w' = table before.
Proof.
  destruct (clear_failure_stops read_only (batch 3) before eq_refl eq_refl)
    as (w' & Hl & Ht & _).
  exists w'. split; [exact Hl | exact Ht].
Defined.

(** X18 on a load in which the third INSERT fails. *)
Lemma load_leaves_prefix_failing :
  table (load (failing_at 2 137) (batch 1200) before).2
    `prefix_of` to_dict_records (batch 1200).
Proof. exact (proj1 (load_leaves_prefix (failing_at 2 137) (batch 1200) before eq_refl)). Defined.

Lemma batch_nonempty (n : nat) : 0 < n → batch n ≠ [].
Proof.
  intros Hn Heq. apply (f_equal length) in Heq. rewrite batch_length in Heq.
  simpl in Heq. lia.
Defined.

(** X19 on a load of 1200 rows. *)
Lemma progress_reaches_100_1200 :
  ∃ w' pcts, load reliable (batch 1200) before = (inr (), w') ∧ last pcts = Some 100.
Proof.
  assert (0 < 1200) as Hn by lia.
  destruct (progress_reaches_100 reliable (batch 1200) before (batch_nonempty 1200 Hn) eq_refl)
    as (w' & pcts & Hl & _ & _ & _ & _ & Hlast).
  - intros j _. reflexivity.
  - exists w', pcts. split; [exact Hl | exact Hlast].
Defined.


(** X21 on a sheet without identifiers. *)
Lemma import_without_rows_blank_table :
  ∃ h w', import_action reliable blank_table before = (inl h, w')
          ∧ table w' = table before ∧ statements w' = statements before.
Proof.
  destruct (import_without_rows reliable blank_table before) as (h & w' & Hl & Ht & Hs & _).
  - intros df Hdf. vm_compute in Hdf. injection Hdf as <-. reflexivity.
  - exists h, w'. split; [exact Hl|]. split; [exact Ht | exact Hs].
Defined.


(** X23 on a spreadsheet that cannot be read. *)
Lemma page_reports_unreadable_upload_xlsx :
  ∃ msg, page_run (environ_with "pw") always_connects reliable (Some xlsx_upload) true before
         = (inl Stop, shown msg (shown (st_success MSG_CONNECTED) before))
         ∧ msg = st_error MSG_READ_FAILED.
Proof.
  destruct (page_reports_unreadable_upload (environ_with "pw") always_connects reliable
              (Some xlsx_upload) before) as (msg & Hrun & _ & Hmsg).
  - vm_compute. eexists. reflexivity.
  - intros file df [= <-]. vm_compute. discriminate.
  - exists msg. split; [exact Hrun|]. apply Hmsg. eexists. reflexivity.
Defined.


(** X14 on [distinct_table] and the same rows without their extra column. *)
Lemma other_columns_ignored_obs :
  validate_and_normalize distinct_table = validate_and_normalize bare_table.
Proof.
  apply other_columns_ignored.
  - reflexivity.
  - apply (bool_decide_unpack _). vm_compute. exact I.
Defined.


End MoreExamples.
